(** * Document retrieval engine ([tools/vector_rag_tool.py])

    A shallow embedding of [VectorRAGTool]: the chunker
    ([_split_document]), the lazy index build
    ([_load_documents_if_needed], [_load_all_documents]), the similarity
    path of [search] and the keyword matcher [_fallback_search].

    Modelling conventions.
    - A Python [str] is a [string]; its characters are the code points
      below 256 ([ascii]).  [len] is [String.length].
    - A Python [float] is an exact rational ([Q]).  The scores computed here
      are [1 - distance] and a quotient of two set sizes; quotients of
      sizes below [2^26] that differ as rationals differ as floats, so the
      order of the scores is the order of the rationals.
    - A Python [set] of strings is a [gset string].
    - A call that may raise returns an [Outcome]: [Ok v] or [Raise e].
    - ChromaDB is outside the repository.  The collection handle is an
      abstract [Store] with the three methods the tool calls ([count],
      [add], [query]), taken as parameters of the engine. *)

From Stdlib Require Import String Ascii List ZArith QArith Qminmax Lia Permutation Sorted.
From stdpp Require Import base gmap strings list pretty.
Import ListNotations.

Local Open Scope string_scope.
Local Open Scope list_scope.

(** ** Python string primitives *)

Module PyStr.

(** [str.isspace] on one character, for code points below 256: TAB, LF, VT,
    FF, CR, the separators FS GS RS US, SPACE, NEL (133) and NBSP (160). *)
Definition isspace (c : ascii) : bool :=
  match N_of_ascii c with
  | 9 | 10 | 11 | 12 | 13 | 28 | 29 | 30 | 31 | 32 | 133 | 160 => true
  | _ => false
  end%N.

(** Truth value of a string: [if s:] holds for the non-empty ones. *)
Definition truthy (s : string) : bool :=
  match s with "" => false | String _ _ => true end.

(** [s.lstrip()] *)
Fixpoint lstrip (s : string) : string :=
  match s with
  | "" => ""
  | String c s' => if isspace c then lstrip s' else s
  end.

(** [s.rstrip()] *)
Fixpoint rstrip (s : string) : string :=
  match s with
  | "" => ""
  | String c s' =>
      match rstrip s' with
      | "" => if isspace c then "" else String c ""
      | r => String c r
      end
  end.

(** [s.strip()] *)
Definition strip (s : string) : string := rstrip (lstrip s).

(** [s[:n]] for [n >= 0]. *)
Fixpoint take (n : nat) (s : string) : string :=
  match n, s with
  | S n', String c s' => String c (take n' s')
  | _, _ => ""
  end.

(** Put a character in front of the first piece of a split. *)
Definition cons_first (c : ascii) (pieces : list string) : list string :=
  match pieces with
  | [] => [String c ""]
  | p :: ps => String c p :: ps
  end.

Definition is_newline (c : ascii) : bool := Ascii.eqb c "010"%char.
Definition is_comma (c : ascii) : bool := Ascii.eqb c ","%char.

(** [s.split('\n\n')]: the pieces between the non-overlapping occurrences
    of a blank line, scanned from the left. *)
Fixpoint split_blank_line (s : string) : list string :=
  match s with
  | "" => [""]
  | String c s' =>
      match s' with
      | String c' rest =>
          if is_newline c && is_newline c'
          then "" :: split_blank_line rest
          else cons_first c (split_blank_line s')
      | "" => cons_first c (split_blank_line s')
      end
  end.

(** [s.split(",")] *)
Fixpoint split_comma (s : string) : list string :=
  match s with
  | "" => [""]
  | String c s' =>
      if is_comma c then "" :: split_comma s'
      else cons_first c (split_comma s')
  end.

(** [s.split()]: the maximal runs of non-whitespace characters. *)
Fixpoint split_ws (s : string) : list string :=
  match s with
  | "" => []
  | String c s' =>
      if isspace c then split_ws s'
      else match s' with
           | "" => [String c ""]
           | String c' _ =>
               if isspace c' then String c "" :: split_ws s'
               else cons_first c (split_ws s')
           end
  end.

(** [str.lower] on one character: A-Z, and the Latin-1 capitals 192-222
    other than the multiplication sign 215, move up by 32. *)
Local Open Scope N_scope.
Definition lower_char (c : ascii) : ascii :=
  let n := N_of_ascii c in
  if ((65 <=? n) && (n <=? 90)) || ((192 <=? n) && (n <=? 222) && negb (n =? 215))
  then ascii_of_N (n + 32) else c.

Local Close Scope N_scope.

(** [s.lower()] *)
Fixpoint lower (s : string) : string :=
  match s with
  | "" => ""
  | String c s' => String (lower_char c) (lower s')
  end.

(** [sep.join(pieces)] for the separator ["\n\n"]. *)
Definition blank_line : string := String "010" (String "010" "").

Fixpoint join_blank_line (pieces : list string) : string :=
  match pieces with
  | [] => ""
  | [p] => p
  | p :: ps => p +:+ blank_line +:+ join_blank_line ps
  end.

(** A string without any non-whitespace character. *)
Fixpoint blank (s : string) : bool :=
  match s with
  | "" => true
  | String c s' => isspace c && blank s'
  end.

(** A string of [n] copies of one character. *)
Fixpoint replicate_char (n : nat) (c : ascii) : string :=
  match n with
  | O => ""
  | S n' => String c (replicate_char n' c)
  end.

End PyStr.

Import PyStr.

(** A non-empty string that neither starts nor ends with whitespace. *)
Definition trimmed (s : string) : Prop :=
  s <> "" /\ lstrip s = s /\ rstrip s = s.

(** ** The chunker *)

Definition max_chunk_size : nat := 500.

(** The [for paragraph in paragraphs] loop of [_split_document]; the state
    is [(chunks, current_chunk)]. *)
Fixpoint split_loop (paragraphs : list string) (chunks : list string)
    (current_chunk : string) : list string * string :=
  match paragraphs with
  | [] => (chunks, current_chunk)
  | paragraph :: rest =>
      let paragraph := strip paragraph in
      if negb (truthy paragraph) then split_loop rest chunks current_chunk
      else if (max_chunk_size <? String.length current_chunk + String.length paragraph)%nat
              && truthy current_chunk
      then split_loop rest (chunks ++ [strip current_chunk]) paragraph
      else if truthy current_chunk
      then split_loop rest chunks (current_chunk +:+ blank_line +:+ paragraph)
      else split_loop rest chunks paragraph
  end.

Definition _split_document (text path : string) : list string :=
  let paragraphs := split_blank_line text in
  let '(chunks, current_chunk) := split_loop paragraphs [] "" in
  let chunks :=
    if truthy (strip current_chunk) then chunks ++ [strip current_chunk] else chunks in
  match chunks with
  | [] => if truthy (strip text) then [take max_chunk_size text] else chunks
  | _ :: _ => chunks
  end.


(** ** Values, exceptions and outcomes *)

(** The dynamically typed values found in index metadata and in results. *)
Inductive value :=
  | VNone
  | VStr (s : string)
  | VInt (z : Z)
  | VBool (b : bool).

Global Instance value_eq_dec : EqDecision value.
Proof. solve_decision. Defined.

Inductive exn :=
  | KeyError (key : string)
  | TypeError
  | AttributeError
  | IndexError
  | BackendError (msg : string)
  | DatabaseError (msg : string).

Inductive Outcome (A : Type) :=
  | Ok (a : A)
  | Raise (e : exn).
Arguments Ok {A} a.
Arguments Raise {A} e.

(** Sequencing: an exception of the first statement skips the rest. *)
Global Instance outcome_ret : MRet Outcome := fun A a => Ok a.
Global Instance outcome_bind : MBind Outcome := fun A B k c =>
  match c with
  | Ok a => k a
  | Raise e => Raise e
  end.

(** [try: body  except Exception as e: handler(e)] *)
Definition try_except {A} (body : Outcome A) (handler : exn -> Outcome A) : Outcome A :=
  match body with
  | Ok a => Ok a
  | Raise e => handler e
  end.

(** Truth value of a dynamic value. *)
Definition value_truthy (v : value) : bool :=
  match v with
  | VNone => false
  | VStr s => truthy s
  | VInt z => negb (z =? 0)%Z
  | VBool b => b
  end.

(** Truth value of an optional string argument ([None] or a [str]). *)
Definition opt_truthy (o : option string) : bool :=
  match o with
  | None => false
  | Some s => truthy s
  end.

Definition value_of_opt (o : option string) : value :=
  match o with
  | None => VNone
  | Some s => VStr s
  end.

(** [x or ""] for an optional string. *)
Definition or_empty (o : option string) : string :=
  match o with
  | Some s => if truthy s then s else ""
  | None => ""
  end.

(** ** Scores *)

Definition Qltb (x y : Q) : bool := (Qnum x * QDen y <? Qnum y * QDen x)%Z.

(** [max(0, x)]: the first argument unless the second is greater. *)
Definition max0 (x : Q) : Q := if Qltb 0 x then x else 0%Q.

(** ** Data model *)

(** A row of [SELECT id, module, path, tags FROM documents]; a text column
    may hold NULL. *)
Record Row := {
  row_id : Z;
  row_module : option string;
  row_path : option string;
  row_tags : option string
}.

(** What the file system holds at a path: nothing that is a regular file, a
    file that cannot be opened or read, or a file with its text. *)
Inductive File :=
  | NoFile
  | Unreadable
  | Content (text : string).

(** The world outside the tool: the [documents] table as
    [database.query] returns it, and the files. *)
Record Env := {
  db_documents : Outcome (list Row);
  fs : string -> File
}.

(** A result dictionary with its keys [id], [module], [tags], [score],
    [excerpt] and [path]. *)
Record Result := {
  res_id : value;
  res_module : value;
  res_tags : value;
  res_score : Q;
  res_excerpt : string;
  res_path : value
}.

(** One chunk as handed to [collection.add]. *)
Record ChunkEntry := {
  entry_id : string;
  entry_document : string;
  entry_metadata : gmap string value
}.

(** The dictionary [collection.query] returns for one query text. *)
Record QueryResult := {
  documents : option (list (list (option string)));
  metadatas : option (list (list (option (gmap string value))));
  distances : option (list (list (option Q)))
}.

(** The methods of a ChromaDB collection that the tool calls: [count()],
    the number of entries; [add(documents, metadatas, ids)], which gives the
    collection afterwards and may raise; [query(query_texts=[query],
    n_results, where)], where [where] is the module to match, if any. *)
Class CollectionAPI (Store : Type) := {
  col_count : Store -> Outcome nat;
  col_add : Store -> list ChunkEntry -> Store * Outcome unit;
  col_query : Store -> string -> Z -> option string -> Outcome QueryResult
}.

(** The fields of a [VectorRAGTool] instance; [None] where the component
    failed to initialise. *)
Record VectorRAGTool (Store : Type) := {
  model : option unit;
  collection : option Store
}.
Arguments model {Store} _.
Arguments collection {Store} _.

(** ** Tags and excerpts *)

(** [{t.strip().lower() for t in s.split(",") if t.strip()}] *)
Definition parse_tags (s : string) : gset string :=
  list_to_set
    (List.map (fun t => lower (strip t))
       (List.filter (fun t => truthy (strip t)) (split_comma s))).

(** [set(s.lower().split())] *)
Definition word_set (s : string) : gset string :=
  list_to_set (split_ws (lower s)).

(** [text[:200] + "..." if len(text) > 200 else text] *)
Definition excerpt_of (text : string) : string :=
  if (200 <? String.length text)%nat then take 200 text +:+ "..." else text.

(** [results[:k]] for any integer [k]: a negative [k] counts from the end. *)
Definition slice_to {A} (k : Z) (l : list A) : list A :=
  if (0 <=? k)%Z then firstn (Z.to_nat k) l
  else firstn (length l - Z.to_nat (- k)) l.

(** ** The keyword matcher *)

(** Insertion into a list kept by descending score; among equal scores the
    inserted result goes first. *)
Fixpoint insert_desc (r : Result) (l : list Result) : list Result :=
  match l with
  | [] => [r]
  | x :: l' =>
      if Qltb (res_score r) (res_score x) then x :: insert_desc r l'
      else r :: x :: l'
  end.

(** [results.sort(key=lambda x: x["score"], reverse=True)]: a stable sort,
    results of equal score keep the order in which they were appended. *)
Fixpoint sort_desc (l : list Result) : list Result :=
  match l with
  | [] => []
  | r :: l' => insert_desc r (sort_desc l')
  end.

(** Reading the file of a row.  [Some text] is the value of [text] after
    the [if path and os.path.isfile(path)] block ([""] when the block is
    skipped); [None] stands for the [continue] of the [except] clause. *)
Definition read_text (env : Env) (path : option string) : option string :=
  match path with
  | Some p =>
      if truthy p then
        match fs env p with
        | NoFile => Some ""
        | Unreadable => None
        | Content text => Some text
        end
      else Some ""
  | None => Some ""
  end.

(** [overlap / total if total > 0 else 0] *)
Definition overlap_score (query_words doc_words : gset string) : Q :=
  let overlap := size (query_words ∩ doc_words) in
  let total := size (query_words ∪ doc_words) in
  if (0 <? total)%nat
  then (inject_Z (Z.of_nat overlap) / inject_Z (Z.of_nat total))%Q
  else 0%Q.

(** The [for row in rows] loop of [_fallback_search]. *)
Fixpoint fallback_loop (env : Env) (query_words : gset string)
    (module tags : option string) (rows : list Row) (results : list Result)
    : list Result :=
  match rows with
  | [] => results
  | row :: rest =>
      let continue := fallback_loop env query_words module tags rest results in
      if opt_truthy module && bool_decide (row_module row ≠ module) then continue
      else if opt_truthy tags
              && negb (bool_decide (parse_tags (default "" tags)
                                      ⊆ parse_tags (or_empty (row_tags row))))
      then continue
      else
        match read_text env (row_path row) with
        | None => continue
        | Some text =>
            if negb (truthy text) then continue
            else
              let doc_words := word_set text in
              let score := overlap_score query_words doc_words in
              if Qltb 0 score
              then fallback_loop env query_words module tags rest
                     (results ++ [ {| res_id := VInt (row_id row);
                                      res_module := value_of_opt (row_module row);
                                      res_tags := value_of_opt (row_tags row);
                                      res_score := score;
                                      res_excerpt := excerpt_of text;
                                      res_path := value_of_opt (row_path row) |} ])
              else continue
        end
  end.

Definition _fallback_search (env : Env) (query : string) (k : Z)
    (module tags : option string) : Outcome (list Result) :=
  let query_words := word_set query in
  rows ← db_documents env;
  let results := fallback_loop env query_words module tags rows [] in
  let results := sort_desc results in
  mret (slice_to k results).

(** ** The similarity path *)

(** [metadata[key]] *)
Definition metadata_item (metadata : option (gmap string value)) (key : string)
    : Outcome value :=
  match metadata with
  | None => Raise TypeError
  | Some m =>
      match m !! key with
      | Some v => Ok v
      | None => Raise (KeyError key)
      end
  end.

(** The tag set of a dynamic value that has passed [v or ""]. *)
Definition value_tags (v : value) : gset string :=
  match v with
  | VStr s => parse_tags s
  | _ => ∅
  end.

(** [{... for t in (metadata.get("tags", "") or "").split(",") ...}] *)
Definition metadata_tags (metadata : option (gmap string value))
    : Outcome (gset string) :=
  match metadata with
  | None => Raise AttributeError
  | Some m =>
      let v := default (VStr "") (m !! "tags") in
      let v := if value_truthy v then v else VStr "" in
      match v with
      | VStr s => Ok (parse_tags s)
      | _ => Raise AttributeError
      end
  end.

(** [results[key][0]] *)
Definition first_list {A} (field : option (list (list A))) : Outcome (list A) :=
  match field with
  | None => Raise TypeError
  | Some [] => Raise IndexError
  | Some (l :: _) => Ok l
  end.

Definition Neighbor : Type :=
  option string * option (gmap string value) * option Q.

(** [zip(a, b, c)]: as long as the shortest argument. *)
Fixpoint zip3 {A B C} (a : list A) (b : list B) (c : list C) : list (A * B * C) :=
  match a, b, c with
  | x :: a', y :: b', z :: c' => (x, y, z) :: zip3 a' b' c'
  | _, _, _ => []
  end.

(** One pass through the body of the result loop, up to the [append]:
    [Ok None] is the [continue] of the tag filter, [Ok (Some r)] the
    dictionary to append. *)
Definition process_neighbor (tags : option string) (nb : Neighbor)
    : Outcome (option Result) :=
  let '(doc, metadata, distance) := nb in
  keep ← (if opt_truthy tags
          then doc_tags ← metadata_tags metadata;
               mret (bool_decide (parse_tags (default "" tags) ⊆ doc_tags))
          else mret true);
  if negb keep then mret None
  else
    score ← match distance with
            | Some d => Ok (max0 (1 - d))
            | None => Raise TypeError
            end;
    doc_id ← metadata_item metadata "doc_id";
    md_module ← metadata_item metadata "module";
    md_tags ← metadata_item metadata "tags";
    excerpt ← match doc with
              | Some text => Ok (excerpt_of text)
              | None => Raise TypeError
              end;
    md_path ← metadata_item metadata "path";
    mret (Some {| res_id := doc_id; res_module := md_module; res_tags := md_tags;
                  res_score := score; res_excerpt := excerpt; res_path := md_path |}).

(** The [for ... in enumerate(zip(...))] loop of [search], with its
    [break] once [len(processed_results) >= k]. *)
Fixpoint process_results (k : Z) (tags : option string) (items : list Neighbor)
    (processed_results : list Result) : Outcome (list Result) :=
  match items with
  | [] => Ok processed_results
  | nb :: rest =>
      match process_neighbor tags nb with
      | Raise e => Raise e
      | Ok None => process_results k tags rest processed_results
      | Ok (Some r) =>
          let processed_results := processed_results ++ [r] in
          if (k <=? Z.of_nat (length processed_results))%Z then Ok processed_results
          else process_results k tags rest processed_results
      end
  end.

(** The body of the [try] block of [search]. *)
Definition similarity_search `{CollectionAPI Store} (store : Store)
    (query : string) (k : Z) (module tags : option string)
    : Outcome (list Result) :=
  let where_conditions := if opt_truthy module then module else None in
  results ← col_query store query (Z.min (k * 2) 20) where_conditions;
  match documents results with
  | None => Ok []
  | Some [] => Ok []
  | Some ([] :: _) => Ok []
  | Some (docs :: _) =>
      metas ← first_list (metadatas results);
      dists ← first_list (distances results);
      process_results k tags (zip3 docs metas dists) []
  end.

Definition search `{CollectionAPI Store} (self : VectorRAGTool Store) (env : Env)
    (query : string) (k : Z) (module tags : option string)
    : Outcome (list Result) :=
  match model self, collection self with
  | Some _, Some store =>
      try_except (similarity_search store query k module tags)
        (fun e => _fallback_search env query k module tags)
  | _, _ => _fallback_search env query k module tags
  end.

(** ** Building the index *)

Definition batch_size : nat := 100.

(** The chunks of one document with their metadata and ids
    ([f"{doc_id}_{i}"]), in the order of [enumerate(chunks)]. *)
Definition chunk_entries (row : Row) (chunks : list string) : list ChunkEntry :=
  imap (fun i chunk =>
          {| entry_id := pretty (row_id row) +:+ "_" +:+ pretty i;
             entry_document := chunk;
             entry_metadata :=
               <["doc_id" := VInt (row_id row)]>
               (<["module" := value_of_opt (row_module row)]>
               (<["path" := value_of_opt (row_path row)]>
               (<["tags" := VStr (or_empty (row_tags row))]>
               (<["chunk_index" := VInt (Z.of_nat i)]> ∅)))) |})
       chunks.

(** The [for row in rows] loop of [_load_all_documents]. *)
Fixpoint collect_entries (env : Env) (rows : list Row) (entries : list ChunkEntry)
    : list ChunkEntry :=
  match rows with
  | [] => entries
  | row :: rest =>
      match read_text env (row_path row) with
      | None => collect_entries env rest entries
      | Some text =>
          if negb (truthy (strip text)) then collect_entries env rest entries
          else
            let chunks := _split_document text (default "" (row_path row)) in
            collect_entries env rest (entries ++ chunk_entries row chunks)
      end
  end.

(** [range(0, n, batch_size)] *)
Definition batch_starts (n : nat) : list nat :=
  List.map (fun j => j * batch_size) (seq 0 ((n + batch_size - 1) / batch_size)).

(** The batch loop: each batch goes to [collection.add]; an exception of
    [add] is printed and the loop goes on.  [writes] records the batches
    handed to [add]. *)
Fixpoint add_batches `{CollectionAPI Store} (store : Store)
    (entries : list ChunkEntry) (starts : list nat)
    (writes : list (list ChunkEntry)) : Store * list (list ChunkEntry) :=
  match starts with
  | [] => (store, writes)
  | i :: rest =>
      let batch := firstn batch_size (skipn i entries) in
      let '(store', _) := col_add store batch in
      add_batches store' entries rest (writes ++ [batch])
  end.

(** [_load_all_documents]: the tool afterwards, and the batches written. *)
Definition _load_all_documents `{CollectionAPI Store} (self : VectorRAGTool Store)
    (env : Env) : Outcome (VectorRAGTool Store * list (list ChunkEntry)) :=
  match model self, collection self with
  | Some _, Some store =>
      rows ← db_documents env;
      let entries := collect_entries env rows [] in
      match entries with
      | [] => mret (self, [])
      | _ :: _ =>
          let '(store', writes) :=
            add_batches store entries (batch_starts (length entries)) [] in
          mret ({| model := model self; collection := Some store' |}, writes)
      end
  | _, _ => mret (self, [])
  end.

(** [_load_documents_if_needed]: a failing [count] is swallowed by the bare
    [except: pass] and the load goes ahead. *)
Definition _load_documents_if_needed `{CollectionAPI Store}
    (self : VectorRAGTool Store) (env : Env)
    : Outcome (VectorRAGTool Store * list (list ChunkEntry)) :=
  match collection self with
  | None => mret (self, [])
  | Some store =>
      match col_count store with
      | Ok count =>
          if (0 <? count)%nat then mret (self, [])
          else _load_all_documents self env
      | Raise _ => _load_all_documents self env
      end
  end.

(** ** A concrete collection for examples

    It keeps the entries it was given and answers every query with a fixed
    outcome. *)
Record CannedStore := {
  canned_entries : list ChunkEntry;
  canned_answer : Outcome QueryResult
}.

Global Instance canned_api : CollectionAPI CannedStore := {
  col_count st := Ok (length (canned_entries st));
  col_add st batch :=
    ({| canned_entries := canned_entries st ++ batch;
        canned_answer := canned_answer st |}, Ok ());
  col_query st _ _ _ := canned_answer st
}.


(** ** Vocabulary for the chunker's properties *)

(** The paragraphs the chunker works with: the pieces between blank lines,
    stripped, the empty ones left out. *)
Definition stripped_paragraphs (text : string) : list string :=
  List.filter truthy (List.map strip (split_blank_line text)).

(** The characters of the paragraphs of a group, separators not counted. *)
Definition total_length (group : list string) : nat :=
  list_sum (List.map String.length group).

(** A group of paragraphs that makes one chunk: a single paragraph of any
    length, or several whose own characters stay within the maximum. *)
Definition chunk_group (group : list string) : Prop :=
  group <> [] /\ (length group = 1 \/ total_length group <= max_chunk_size).

(** The size bound as the specification words it: a chunk has at most 500
    characters, and where a single paragraph is longer than that the chunk
    has exactly 500. *)
Definition chunks_bounded_as_specified : Prop :=
  forall text path chunk,
    In chunk (_split_document text path) ->
    String.length chunk <= 500 \/
    (exists paragraph,
        In paragraph (split_blank_line text) /\
        500 < String.length (strip paragraph) /\
        String.length chunk = 500).

(** ** Vocabulary for the keyword matcher's properties

    These definitions follow the words of the specification; the theorems
    below compare them with [_fallback_search]. *)

(** Jaccard similarity of two word sets: [|intersection| / |union|]. *)
Definition jaccard (a b : gset string) : Q :=
  (inject_Z (Z.of_nat (size (a ∩ b))) / inject_Z (Z.of_nat (size (a ∪ b))))%Q.

(** The [module] filter: when given, the row's module must equal it. *)
Definition module_matches (module : option string) (row : Row) : bool :=
  if opt_truthy module then bool_decide (row_module row = module) else true.

(** The [tags] filter: when given, every requested tag must be among the
    tags stored for the document. *)
Definition tags_match (tags : option string) (stored : string) : bool :=
  if opt_truthy tags
  then bool_decide (parse_tags (default "" tags) ⊆ parse_tags stored)
  else true.

(** The file content of a candidate: the row passes both filters and its
    file can be read and is not empty. *)
Definition candidate_text (env : Env) (module tags : option string) (row : Row)
    : option string :=
  if module_matches module row && tags_match tags (or_empty (row_tags row))
  then match read_text env (row_path row) with
       | Some text => if truthy text then Some text else None
       | None => None
       end
  else None.

(** The result for a candidate, scored by Jaccard similarity. *)
Definition jaccard_result (query : string) (row : Row) (text : string) : Result :=
  {| res_id := VInt (row_id row);
     res_module := value_of_opt (row_module row);
     res_tags := value_of_opt (row_tags row);
     res_score := jaccard (word_set query) (word_set text);
     res_excerpt := excerpt_of text;
     res_path := value_of_opt (row_path row) |}.

(** The candidates that share at least one word with the query, in the
    order of the rows. *)
Definition overlapping_candidates (env : Env) (query : string)
    (module tags : option string) (rows : list Row) : list Result :=
  flat_map
    (fun row =>
       match candidate_text env module tags row with
       | Some text =>
           if decide (word_set query ∩ word_set text = ∅) then []
           else [jaccard_result query row text]
       | None => []
       end)
    rows.

(** Descending order of scores. *)
Definition score_ge (a b : Result) : Prop := (res_score b <= res_score a)%Q.

(** ** Vocabulary for the properties of [search] *)

(** The neighbours an answer of the index yields to the result loop. *)
Definition yielded_neighbours (answer : QueryResult) : list Neighbor :=
  match documents answer, metadatas answer, distances answer with
  | Some (docs :: _), Some (metas :: _), Some (dists :: _) => zip3 docs metas dists
  | _, _, _ => []
  end.

(** A neighbour passes the tag filter: no filter was asked for, or its
    stored tags can be read and hold every requested tag. *)
Definition passes_tag_filter (tags : option string) (nb : Neighbor) : bool :=
  if opt_truthy tags then
    match metadata_tags (snd (fst nb)) with
    | Ok doc_tags => bool_decide (parse_tags (default "" tags) ⊆ doc_tags)
    | Raise _ => false
    end
  else true.

(** The behaviour of the keyword matcher for [k <= 0] as claimed: an empty
    sequence. *)
Definition fallback_empty_for_nonpositive_k : Prop :=
  forall env query k module tags results,
    (k <= 0)%Z ->
    _fallback_search env query k module tags = Ok results ->
    results = [].

(** The range of scores as specified: every score of every result of
    [search] lies in [[0, 1]]. *)
Definition scores_in_unit_interval : Prop :=
  forall (self : VectorRAGTool CannedStore) env query k module tags results r,
    search self env query k module tags = Ok results ->
    In r results ->
    (0 <= res_score r <= 1)%Q.

(** The error handling of [search] as claimed: whenever the [try] block
    raises, [search] still returns a sequence, so that no exception
    reaches the caller. *)
Definition no_exception_reaches_caller : Prop :=
  forall (self : VectorRAGTool CannedStore) env query k module tags store e,
    model self = Some () ->
    collection self = Some store ->
    similarity_search store query k module tags = Raise e ->
    exists results, search self env query k module tags = Ok results.

(** ** A small corpus for examples *)

Module Sample.

Definition refund_policy : Row :=
  {| row_id := 1; row_module := Some "finance"; row_path := Some "docs/refunds.txt";
     row_tags := Some "Policy, refunds" |}.

Definition sales_playbook : Row :=
  {| row_id := 2; row_module := Some "sales"; row_path := Some "docs/playbook.txt";
     row_tags := Some "policy" |}.

Definition sales_note : Row :=
  {| row_id := 3; row_module := Some "sales"; row_path := Some "docs/note.txt";
     row_tags := None |}.

Definition rows : list Row := [refund_policy; sales_playbook; sales_note].

Definition files (p : string) : File :=
  if String.eqb p "docs/refunds.txt" then Content "Refunds are processed within 14 days"
  else if String.eqb p "docs/playbook.txt" then Content "refunds policy days"
  else if String.eqb p "docs/note.txt" then Content "days"
  else NoFile.

(** The same files, and one more that no row refers to. *)
Definition files_and_more (p : string) : File :=
  if String.eqb p "docs/unlisted.txt" then Content "refunds days" else files p.

Definition env : Env := {| db_documents := Ok rows; fs := files |}.

Definition env_and_more : Env := {| db_documents := Ok rows; fs := files_and_more |}.

(** The same files, with a [documents] table that cannot be read:
    [database.query] raises. *)
Definition env_without_table : Env :=
  {| db_documents := Raise (DatabaseError "no such table: documents"); fs := files |}.

Definition chunk_metadata (doc_id : Z) (tags : string) : gmap string value :=
  <["doc_id" := VInt doc_id]>
  (<["module" := VStr "finance"]>
  (<["path" := VStr "docs/refunds.txt"]>
  (<["tags" := VStr tags]>
  (<["chunk_index" := VInt 0]> ∅)))).

(** An answer of the index with two neighbours. *)
Definition two_neighbours : QueryResult :=
  {| documents := Some [[Some "Refunds are processed"; Some "within 14 days"]];
     metadatas := Some [[Some (chunk_metadata 1 "policy");
                         Some (chunk_metadata 1 "policy,refunds")]];
     distances := Some [[Some (1 # 4)%Q; Some (1 # 2)%Q]] |}.

(** An answer whose nearest neighbour is reported at the distance
    [-2^-23], as single-precision rounding of [1 - cos] gives for a chunk
    equal to the query. *)
Definition rounded_below_zero : QueryResult :=
  {| documents := Some [[Some "Refunds are processed"]];
     metadatas := Some [[Some (chunk_metadata 1 "policy")]];
     distances := Some [[Some (-1 # 8388608)%Q]] |}.

(** An answer whose metadata lacks the key [path]. *)
Definition missing_path : QueryResult :=
  {| documents := Some [[Some "Refunds are processed"]];
     metadatas := Some [[Some (<["doc_id" := VInt 1]>
                              (<["module" := VStr "finance"]>
                              (<["tags" := VStr "policy"]> ∅)))]];
     distances := Some [[Some (1 # 4)%Q]] |}.

Definition one_entry : ChunkEntry :=
  {| entry_id := "1_0"; entry_document := "Refunds are processed";
     entry_metadata := chunk_metadata 1 "policy" |}.

Definition store_answering (answer : Outcome QueryResult) : CannedStore :=
  {| canned_entries := [one_entry]; canned_answer := answer |}.

Definition empty_store : CannedStore :=
  {| canned_entries := []; canned_answer := Ok two_neighbours |}.

Definition tool_with (store : CannedStore) : VectorRAGTool CannedStore :=
  {| model := Some (); collection := Some store |}.

(** A tool whose vector components failed to initialise. *)
Definition tool_without_index : VectorRAGTool CannedStore :=
  {| model := None; collection := None |}.

End Sample.

(** The results of the examples. *)
Module SampleResults.

Definition first_neighbour : Result :=
  {| res_id := VInt 1; res_module := VStr "finance"; res_tags := VStr "policy";
     res_score := max0 (1 - (1 # 4)); res_excerpt := "Refunds are processed";
     res_path := VStr "docs/refunds.txt" |}.

Definition second_neighbour : Result :=
  {| res_id := VInt 1; res_module := VStr "finance"; res_tags := VStr "policy,refunds";
     res_score := max0 (1 - (1 # 2)); res_excerpt := "within 14 days";
     res_path := VStr "docs/refunds.txt" |}.

Definition rounded_neighbour : Result :=
  {| res_id := VInt 1; res_module := VStr "finance"; res_tags := VStr "policy";
     res_score := max0 (1 - (-1 # 8388608)); res_excerpt := "Refunds are processed";
     res_path := VStr "docs/refunds.txt" |}.

Definition playbook : Result :=
  jaccard_result "refunds days" Sample.sales_playbook "refunds policy days".

Definition note : Result :=
  jaccard_result "refunds days" Sample.sales_note "days".

Definition refunds : Result :=
  jaccard_result "refunds days" Sample.refund_policy
    "Refunds are processed within 14 days".

End SampleResults.

(** ** Construction of the tool *)

(** What the libraries give when a tool is constructed: whether the imports
    succeeded ([HAS_VECTOR_DEPS]), and the outcomes of
    [SentenceTransformer('all-MiniLM-L6-v2')], of
    [chromadb.PersistentClient(...)] and of
    [get_or_create_collection(name=...)]. *)
Record Platform (Store : Type) := {
  has_vector_deps : bool;
  sentence_transformer : Outcome unit;
  persistent_client : Outcome unit;
  get_or_create_collection : string -> Outcome Store
}.
Arguments has_vector_deps {Store} _.
Arguments sentence_transformer {Store} _.
Arguments persistent_client {Store} _.
Arguments get_or_create_collection {Store} _ _.

Definition disabled_tool {Store : Type} : VectorRAGTool Store :=
  {| model := None; collection := None |}.

(** [_initialize_vector_components]: any exception of the [try] block
    leaves the tool without model and collection.  The only exception of
    [_load_documents_if_needed] is the one of [database.query], raised
    before any batch is written, so a failed construction has written
    nothing. *)
Definition _initialize_vector_components `{CollectionAPI Store}
    (platform : Platform Store) (collection_name : string) (env : Env)
    : VectorRAGTool Store * list (list ChunkEntry) :=
  let attempt :=
    m ← sentence_transformer platform;
    _ ← persistent_client platform;
    store ← get_or_create_collection platform collection_name;
    _load_documents_if_needed {| model := Some m; collection := Some store |} env in
  match attempt with
  | Ok (self, writes) => (self, writes)
  | Raise _ => (disabled_tool, [])
  end.

Definition __init__ `{CollectionAPI Store} (platform : Platform Store)
    (collection_name : string) (env : Env)
    : VectorRAGTool Store * list (list ChunkEntry) :=
  if has_vector_deps platform
  then _initialize_vector_components platform collection_name env
  else (disabled_tool, []).

(** ** The domain adapters *)

Section Adapters.

Context `{CollectionAPI Store}.

(** [PolicyRAGTool.search_policies] *)
Definition search_policies (self : VectorRAGTool Store) (env : Env)
    (query : string) (k : Z) : Outcome (list Result) :=
  search self env query k None (Some "policy").

(** [DocRAGTool.search_contracts] *)
Definition search_contracts (self : VectorRAGTool Store) (env : Env)
    (query : string) (k : Z) : Outcome (list Result) :=
  search self env query k (Some "inventory") (Some "contracts").

(** [DocRAGTool.search_incidents] *)
Definition search_incidents (self : VectorRAGTool Store) (env : Env)
    (query : string) (k : Z) : Outcome (list Result) :=
  search self env query k None (Some "incidents").

(** [DefinitionRAGTool.search_definitions] *)
Definition search_definitions (self : VectorRAGTool Store) (env : Env)
    (query : string) (k : Z) : Outcome (list Result) :=
  search self env query k None (Some "glossary,metrics").

(** [SalesRAGTool.search_procedures] *)
Definition search_procedures (self : VectorRAGTool Store) (env : Env)
    (query : string) (k : Z) : Outcome (list Result) :=
  search self env query k (Some "sales") None.

End Adapters.

(** ** Vocabulary for further properties *)

(** The result the loop body gives for a neighbour, if it keeps it. *)
Definition kept_result (tags : option string) (nb : Neighbor) : option Result :=
  match process_neighbor tags nb with
  | Ok o => o
  | Raise _ => None
  end.

(** The results of the neighbours that pass the filter, in the order of
    the index. *)
Definition kept_results (tags : option string) (items : list Neighbor) : list Result :=
  omap (kept_result tags) items.




(** A result has the score [s]. *)
Definition has_score (s : Q) (r : Result) : bool := Qeq_bool (res_score r) s.

(** The entries the loader makes of one row: none when the file is
    missing, unreadable or blank. *)
Definition row_entries (env : Env) (row : Row) : list ChunkEntry :=
  match read_text env (row_path row) with
  | Some text =>
      if truthy (strip text)
      then chunk_entries row (_split_document text (default "" (row_path row)))
      else []
  | None => []
  end.

(** The file of a row can be read and holds a non-whitespace character. *)
Definition has_content (env : Env) (row : Row) : bool :=
  match read_text env (row_path row) with
  | Some text => negb (blank text)
  | None => false
  end.

(** The neighbour the index holds for an entry, at a given distance. *)
Definition neighbour_of (entry : ChunkEntry) (distance : Q) : Neighbor :=
  (Some (entry_document entry), Some (entry_metadata entry), Some distance).

(** A chunk that is one of the stripped paragraphs, or is short. *)
Definition paragraph_or_short (paragraphs : list string) (chunk : string) : Prop :=
  In chunk paragraphs \/ String.length chunk <= max_chunk_size + 2.

(** A string without the character that separates the two parts of a chunk
    id. *)
Fixpoint no_underscore (s : string) : bool :=
  match s with
  | "" => true
  | String c s' => negb (Ascii.eqb c "_"%char) && no_underscore s'
  end.

(** ** More sample data *)

Module SampleIndex.

(** An answer with one neighbour. *)
Definition one_neighbour : QueryResult :=
  {| documents := Some [[Some "Refunds are processed"]];
     metadatas := Some [[Some (Sample.chunk_metadata 1 "policy")]];
     distances := Some [[Some (1 # 4)%Q]] |}.

(** The same neighbour, followed by one that has no metadata. *)
Definition then_without_metadata : QueryResult :=
  {| documents := Some [[Some "Refunds are processed"; Some "within 14 days"]];
     metadatas := Some [[Some (Sample.chunk_metadata 1 "policy"); None]];
     distances := Some [[Some (1 # 4)%Q; Some (1 # 2)%Q]] |}.

(** The entries the loader makes of the refund policy. *)
Definition loaded_entries : list ChunkEntry :=
  chunk_entries Sample.refund_policy ["Refunds are processed within 14 days"].

Definition loaded_entry : ChunkEntry :=
  default Sample.one_entry (head loaded_entries).

(** A platform on which every step of the construction succeeds. *)
Definition working_platform : Platform CannedStore :=
  {| has_vector_deps := true;
     sentence_transformer := Ok ();
     persistent_client := Ok ();
     get_or_create_collection := fun _ => Ok Sample.empty_store |}.

(** A platform whose index client cannot be created. *)
Definition platform_without_client : Platform CannedStore :=
  {| has_vector_deps := true;
     sentence_transformer := Ok ();
     persistent_client := Raise (BackendError "no storage");
     get_or_create_collection := fun _ => Ok Sample.empty_store |}.

End SampleIndex.

(** The index gives its neighbours by increasing distance. *)
Definition nearer_first (a b : Neighbor) : Prop :=
  forall d1 d2, snd a = Some d1 -> snd b = Some d2 -> (d1 <= d2)%Q.

(** ** A caller: the finance agent's summary of policy results *)

Definition newline : string := String "010" "".
Definition double_quote : string := String "034" "".

(** The loop [for i, result in enumerate(results[:3], 1)] of
    [_summarise_policy_results], which appends
    [f"{i}. {result.get('excerpt', '')}\n"] to [context]. *)
Fixpoint context_loop (i : nat) (results : list Result) (context : string) : string :=
  match results with
  | [] => context
  | result :: rest =>
      context_loop (S i) rest
        (context +:+ pretty i +:+ ". " +:+ res_excerpt result +:+ newline)
  end.

(** [FinanceAgent._summarise_policy_results]; the call of the language
    model is a parameter, and may raise. *)
Definition _summarise_policy_results (call_gemini_prompt : string -> Outcome string)
    (results : list Result) (query : string) : string :=
  match results with
  | [] => "I couldn't find policy information about '" +:+ query +:+ "'."
  | _ :: _ =>
      let context := context_loop 1 (firstn 3 results) "" in
      let prompt :=
        newline
        +:+ "Based on the following finance policy information, answer the user's question: "
        +:+ double_quote +:+ query +:+ double_quote +:+ newline
        +:+ newline
        +:+ "Relevant policy information:" +:+ newline
        +:+ context +:+ newline
        +:+ newline
        +:+ "Provide a clear, professional response that addresses the user's question about our finance policies."
        +:+ newline in
      match call_gemini_prompt prompt with
      | Ok response => strip response
      | Raise _ => "Based on our finance policies:" +:+ newline +:+ newline +:+ context
      end
  end.

Module SampleModel.

(** A language model that cannot be reached. *)
Definition unreachable (prompt : string) : Outcome string :=
  Raise (BackendError "connection refused").

End SampleModel.
(** * Checks of the embedding on concrete inputs *)

Example split_blank_line_ex :
  split_blank_line ("a" +:+ blank_line +:+ String "010" "b") = ["a"; String "010" "b"].
Proof. reflexivity. Qed.

Example split_comma_ex : split_comma "a, B,,c" = ["a"; " B"; ""; "c"].
Proof. reflexivity. Qed.

Example split_ws_ex : split_ws "  Refund  time frame " = ["Refund"; "time"; "frame"].
Proof. reflexivity. Qed.

Example strip_ex : strip "  a b  " = "a b".
Proof. reflexivity. Qed.

Example lower_ex : lower "Policy-7 X" = "policy-7 x".
Proof. reflexivity. Qed.

Example split_document_ex :
  _split_document ("one" +:+ blank_line +:+ " two " +:+ blank_line +:+ blank_line) "p"
  = ["one" +:+ blank_line +:+ "two"].
Proof. reflexivity. Qed.

(** * Facts about the string primitives *)

Section StringFacts.

Lemma app_cons c s t : String c s +:+ t = String c (s +:+ t).
Proof. reflexivity. Qed.

Lemma app_empty_l t : "" +:+ t = t.
Proof. reflexivity. Qed.

Lemma str_length_app s t : String.length (s +:+ t) = String.length s + String.length t.
Proof. induction s as [|c s IH]; [done|]. rewrite app_cons. simpl. by rewrite IH. Qed.

Lemma truthy_true s : truthy s = true <-> s <> "".
Proof. destruct s; simpl; split; intros; congruence. Qed.

Lemma truthy_false s : truthy s = false <-> s = "".
Proof. destruct s; simpl; split; intros; congruence. Qed.

(** Induction over strings two characters at a time, as [split_blank_line]
    recurses. *)
Lemma string_pair_ind (P : string -> Prop) :
  P "" ->
  (forall c, P (String c "")) ->
  (forall c c' s, P s -> P (String c' s) -> P (String c (String c' s))) ->
  forall s, P s.
Proof.
  intros H0 H1 H2 s.
  assert (P s /\ forall c, P (String c s)) as [? _]; [|done].
  induction s as [|c' s [IHs IHc]]; [by split|].
  split; [apply IHc|]. intros c. by apply H2.
Qed.

Lemma is_newline_space c : is_newline c = true -> isspace c = true.
Proof. unfold is_newline. intros ->%Ascii.eqb_eq. reflexivity. Qed.

Lemma blank_app s t : blank (s +:+ t) = blank s && blank t.
Proof.
  induction s as [|c s IH]; [done|].
  rewrite app_cons. simpl. rewrite IH. by rewrite andb_assoc.
Qed.

Lemma forallb_cons_first c l :
  forallb blank (cons_first c l) = isspace c && forallb blank l.
Proof. destruct l; simpl; [by rewrite !andb_true_r|by rewrite andb_assoc]. Qed.

(** A text is blank exactly when all its blank-line separated pieces are. *)
Lemma blank_split_blank_line s :
  forallb blank (split_blank_line s) = blank s.
Proof.
  induction s as [|c|c c' s IH1 IH2] using string_pair_ind.
  - reflexivity.
  - simpl. by rewrite !andb_true_r.
  - change (split_blank_line (String c (String c' s)))
      with (if is_newline c && is_newline c'
            then "" :: split_blank_line s
            else cons_first c (split_blank_line (String c' s))).
    destruct (is_newline c && is_newline c') eqn:Hnl.
    + apply andb_true_iff in Hnl as [Hc Hc'].
      simpl. rewrite IH1.
      by rewrite (is_newline_space _ Hc), (is_newline_space _ Hc').
    + rewrite forallb_cons_first, IH2. reflexivity.
Qed.

Lemma lstrip_blank s : blank s = true -> lstrip s = "".
Proof.
  induction s as [|c s IH]; [done|]. simpl.
  intros [Hc Hs]%andb_true_iff. rewrite Hc. auto.
Qed.

Lemma blank_lstrip s : blank (lstrip s) = blank s.
Proof.
  induction s as [|c s IH]; [done|]. simpl.
  destruct (isspace c) eqn:Hc; simpl; [done|]. by rewrite Hc.
Qed.

Lemma rstrip_empty s : rstrip s = "" <-> blank s = true.
Proof.
  induction s as [|c s IH]; [done|]. simpl.
  destruct (rstrip s) eqn:Hr.
  - destruct IH as [IH _]. rewrite IH by done.
    destruct (isspace c); simpl; split; congruence.
  - destruct (blank s) eqn:Hb.
    + destruct IH as [_ IH]. discriminate IH; done.
    + rewrite andb_false_r. split; congruence.
Qed.

Lemma strip_empty s : strip s = "" <-> blank s = true.
Proof. unfold strip. by rewrite rstrip_empty, blank_lstrip. Qed.

Lemma truthy_strip s : truthy (strip s) = negb (blank s).
Proof.
  destruct (blank s) eqn:Hb; simpl.
  - apply truthy_false. by apply strip_empty.
  - apply truthy_true. rewrite strip_empty. congruence.
Qed.

Lemma trimmed_strip s : trimmed s -> strip s = s.
Proof. intros (_ & Hl & Hr). unfold strip. by rewrite Hl. Qed.

Lemma rstrip_idemp s : rstrip (rstrip s) = rstrip s.
Proof.
  induction s as [|c s IH]; [done|]. simpl.
  destruct (rstrip s) as [|c' r] eqn:Hr.
  - destruct (isspace c) eqn:Hc; simpl; [done|]. by rewrite Hc.
  - change (rstrip (String c (String c' r)))
      with (match rstrip (String c' r) with
            | "" => if isspace c then "" else String c ""
            | r' => String c r'
            end).
    by rewrite IH.
Qed.

Lemma rstrip_head c s : isspace c = false -> exists r, rstrip (String c s) = String c r.
Proof.
  intros Hc. simpl. destruct (rstrip s); rewrite ?Hc; eauto.
Qed.

Lemma lstrip_head s : lstrip s <> "" ->
  exists c r, lstrip s = String c r /\ isspace c = false.
Proof.
  induction s as [|c s IH]; [done|]. simpl.
  destruct (isspace c) eqn:Hc; [done|]. eauto.
Qed.

Lemma strip_trimmed s : strip s <> "" -> trimmed (strip s).
Proof.
  intros Hne. split; [done|]. unfold strip in *. split; [|apply rstrip_idemp].
  destruct (lstrip s) as [|c r] eqn:Hl; [done|].
  destruct (lstrip_head s) as (c1 & r1 & Heq & Hc); [congruence|].
  rewrite Hl in Heq. injection Heq as -> ->.
  destruct (rstrip_head c1 r1 Hc) as [r' ->]. simpl. by rewrite Hc.
Qed.

Lemma lstrip_app s t : s <> "" -> lstrip s = s -> lstrip (s +:+ t) = s +:+ t.
Proof.
  destruct s as [|c s]; [done|]. intros _. rewrite app_cons. simpl.
  destruct (isspace c); [|done].
  intros Heq. exfalso.
  assert (String.length (lstrip s) <= String.length s) as Hle.
  { clear. induction s as [|c s IH]; simpl; [lia|].
    destruct (isspace c); simpl; lia. }
  rewrite Heq in Hle. simpl in Hle. lia.
Qed.

Lemma rstrip_app s t : t <> "" -> rstrip t = t -> rstrip (s +:+ t) = s +:+ t.
Proof.
  intros Hne Ht. induction s as [|c s IH]; [done|].
  rewrite app_cons. simpl. rewrite IH.
  destruct (s +:+ t) eqn:Hst; [|done].
  destruct s; [|done]. rewrite app_empty_l in Hst. congruence.
Qed.

Lemma app_not_empty_r s t : t <> "" -> s +:+ t <> "".
Proof. destruct s; [done|]. by rewrite app_cons. Qed.

Lemma trimmed_app s m t : trimmed s -> trimmed t -> trimmed (s +:+ m +:+ t).
Proof.
  intros (Hs & Hsl & _) (Ht & _ & Htr). split; [|split].
  - by apply app_not_empty_r, app_not_empty_r.
  - by apply lstrip_app.
  - rewrite rstrip_app; [done|by apply app_not_empty_r|].
    by apply rstrip_app.
Qed.

End StringFacts.

(** * The chunker *)

Section Chunker.

Lemma app_assoc_str s t u : (s +:+ t) +:+ u = s +:+ t +:+ u.
Proof. induction s as [|c s IH]; [done|]. rewrite !app_cons. by rewrite IH. Qed.

Lemma join_cons p q ps :
  join_blank_line (p :: q :: ps) = p +:+ blank_line +:+ join_blank_line (q :: ps).
Proof. reflexivity. Qed.

Lemma join_snoc g p :
  g <> [] -> join_blank_line (g ++ [p]) = join_blank_line g +:+ blank_line +:+ p.
Proof.
  induction g as [|a g IH]; [done|]. intros _.
  destruct g as [|b g]; [done|].
  change ((a :: b :: g) ++ [p]) with (a :: b :: (g ++ [p])).
  rewrite !join_cons.
  change (b :: g ++ [p]) with ((b :: g) ++ [p]).
  rewrite IH by done. by rewrite !app_assoc_str.
Qed.

Lemma join_trimmed g : Forall trimmed g -> g <> [] -> trimmed (join_blank_line g).
Proof.
  induction g as [|a g IH]; [done|]. intros Hall _.
  apply Forall_cons_iff in Hall as [Ha Hg].
  destruct g as [|b g]; [done|].
  rewrite join_cons. apply trimmed_app; [done|]. by apply IH.
Qed.

Lemma truthy_join g :
  Forall trimmed g -> truthy (join_blank_line g) = match g with [] => false | _ => true end.
Proof.
  intros Hall. destruct g as [|a g]; [done|].
  apply truthy_true. by apply (join_trimmed (a :: g)).
Qed.

Lemma total_length_app g h : total_length (g ++ h) = total_length g + total_length h.
Proof. unfold total_length. by rewrite List.map_app, list_sum_app. Qed.

Lemma total_length_join g : total_length g <= String.length (join_blank_line g).
Proof.
  induction g as [|a g IH]; [done|].
  destruct g as [|b g]; [unfold total_length; simpl; lia|].
  rewrite join_cons, !str_length_app.
  change (total_length (a :: b :: g)) with (String.length a + total_length (b :: g)).
  lia.
Qed.

(** The loop groups the stripped paragraphs in their order: every flushed
    chunk and the running buffer is the join of a group. *)
Lemma split_loop_groups paragraphs : forall done cur,
  Forall trimmed cur ->
  (length cur <= 1 \/ total_length cur <= max_chunk_size) ->
  exists done' cur',
    split_loop paragraphs (List.map join_blank_line done) (join_blank_line cur)
    = (List.map join_blank_line (done ++ done'), join_blank_line cur') /\
    Forall trimmed cur' /\
    (length cur' <= 1 \/ total_length cur' <= max_chunk_size) /\
    Forall chunk_group done' /\
    Forall (Forall trimmed) done' /\
    concat done' ++ cur' = cur ++ List.filter truthy (List.map strip paragraphs).
Proof.
  induction paragraphs as [|p rest IH]; intros done cur Htr Hsz.
  { exists [], cur. simpl. by rewrite (app_nil_r done), (app_nil_r cur). }
  simpl split_loop. simpl List.map. simpl List.filter.
  destruct (truthy (strip p)) eqn:Hp; simpl negb; cbv iota.
  2:{ destruct (IH done cur Htr Hsz) as (done' & cur' & ? & ? & ? & ? & ? & ?).
      by exists done', cur'. }
  assert (trimmed (strip p)) as Htp by by apply strip_trimmed, truthy_true.
  rewrite (truthy_join cur Htr).
  destruct cur as [|a cur'].
  - (* empty buffer: the paragraph starts it *)
    rewrite andb_false_r.
    destruct (IH done [strip p]) as (done' & cur'' & Heq & ? & ? & ? & ? & Hcat).
    { by constructor. }
    { left. simpl. lia. }
    exists done', cur''. by repeat split.
  - rewrite andb_true_r.
    destruct (max_chunk_size <? _)%nat eqn:Hlt.
    + (* flush the buffer and start a new one *)
      rewrite (trimmed_strip _ (join_trimmed (a :: cur') Htr ltac:(done))).
      destruct (IH (done ++ [a :: cur']) [strip p])
        as (done' & cur'' & Heq & ? & ? & Hgood & Htrs & Hcat).
      { by constructor. }
      { left. simpl. lia. }
      exists ((a :: cur') :: done'), cur''.
      rewrite List.map_app in Heq.
      change (List.map join_blank_line [a :: cur'])
        with [join_blank_line (a :: cur')] in Heq.
      rewrite <- app_assoc in Heq.
      repeat split; try done.
      * constructor; [|done]. split; [done|].
        destruct Hsz as [Hsz|Hsz]; [left; simpl in *; lia|by right].
      * by constructor.
      * simpl. rewrite <- app_assoc. simpl in Hcat. by rewrite Hcat.
    + (* extend the buffer *)
      apply Nat.ltb_ge in Hlt.
      rewrite <- (join_snoc (a :: cur')) by done.
      destruct (IH done ((a :: cur') ++ [strip p]))
        as (done' & cur'' & Heq & ? & ? & ? & ? & Hcat).
      { apply Forall_app. split; [done|by constructor]. }
      { right. rewrite total_length_app.
        pose proof (total_length_join (a :: cur')).
        unfold total_length at 2. simpl. lia. }
      exists done', cur''. repeat split; try done.
      rewrite Hcat. by rewrite <- app_assoc.
Qed.

Lemma stripped_paragraphs_nil text :
  stripped_paragraphs text = [] <-> blank text = true.
Proof.
  unfold stripped_paragraphs. rewrite <- blank_split_blank_line.
  induction (split_blank_line text) as [|p ps IH]; [done|].
  simpl. rewrite truthy_strip.
  destruct (blank p); simpl; [exact IH|]. split; intros; congruence.
Qed.

(** The chunks are the joins of consecutive groups of the stripped
    paragraphs; nothing is truncated and nothing is lost. *)
Lemma split_document_groups text path :
  exists groups,
    concat groups = stripped_paragraphs text /\
    _split_document text path = List.map join_blank_line groups /\
    Forall chunk_group groups /\
    Forall (Forall trimmed) groups.
Proof.
  unfold _split_document. generalize (take max_chunk_size text). intros cut.
  destruct (split_loop_groups (split_blank_line text) [] [])
    as (done' & cur' & Heq & Htr & Hsz & Hgood & Htrs & Hcat); [done|left; simpl; lia|].
  simpl in Heq. rewrite Heq. simpl in Hcat.
  fold (stripped_paragraphs text) in Hcat.
  destruct cur' as [|a cur'].
  - (* nothing left in the buffer *)
    simpl. rewrite app_nil_r in Hcat.
    destruct done' as [|g done'].
    + simpl. rewrite truthy_strip.
      rewrite (proj1 (stripped_paragraphs_nil text) (eq_sym Hcat)).
      by exists [].
    + exists (g :: done'). done.
  - pose proof (join_trimmed (a :: cur') Htr ltac:(done)) as Hj.
    rewrite (trimmed_strip _ Hj).
    assert (truthy (join_blank_line (a :: cur')) = true) as -> by by apply truthy_true, Hj.
    exists (done' ++ [a :: cur']). repeat split.
    + by rewrite concat_app; simpl; rewrite app_nil_r.
    + rewrite List.map_app. simpl.
      destruct (List.map join_blank_line done'); done.
    + apply Forall_app. split; [done|]. constructor; [|done]. split; [done|].
      destruct Hsz as [Hsz|Hsz]; [left; simpl in *; lia|by right].
    + apply Forall_app. split; [done|]. by constructor.
Qed.

(** The branch that would cut the text to its first 500 characters is
    never taken: a text with a non-blank character always leaves a chunk
    in the list or a paragraph in the buffer. *)
Lemma split_document_never_truncates text path :
  _split_document text path
  = let '(chunks, current_chunk) := split_loop (split_blank_line text) [] "" in
    if truthy (strip current_chunk) then chunks ++ [strip current_chunk] else chunks.
Proof.
  unfold _split_document. generalize (take max_chunk_size text). intros cut.
  destruct (split_loop_groups (split_blank_line text) [] [])
    as (done' & cur' & Heq & Htr & _ & _ & _ & Hcat); [done|left; simpl; lia|].
  simpl in Heq. rewrite Heq. simpl in Hcat.
  fold (stripped_paragraphs text) in Hcat.
  destruct cur' as [|a cur'].
  - simpl. destruct done' as [|g done']; [|done]. simpl.
    symmetry in Hcat. apply stripped_paragraphs_nil in Hcat.
    by rewrite truthy_strip, Hcat.
  - pose proof (join_trimmed (a :: cur') Htr ltac:(done)) as Hj.
    rewrite (trimmed_strip _ Hj).
    assert (truthy (join_blank_line (a :: cur')) = true) as -> by by apply truthy_true, Hj.
    by destruct (List.map join_blank_line done').
Qed.

End Chunker.

Section ChunkerClaims.

Lemma concat_nil_groups (groups : list (list string)) :
  Forall chunk_group groups -> concat groups = [] -> groups = [].
Proof.
  destruct groups as [|g groups]; [done|].
  intros [[Hg _] _]%Forall_cons_iff. simpl.
  destruct g; [done|]. discriminate.
Qed.

(** C4.  A text with at least one non-whitespace character gives at least
    one chunk; an empty or whitespace-only text gives no chunk. *)
Theorem split_document_nonempty_iff_not_blank text path :
  if blank text
  then _split_document text path = []
  else 1 <= length (_split_document text path).
Proof.
  destruct (split_document_groups text path) as (groups & Hcat & -> & Hgood & _).
  destruct (blank text) eqn:Hb.
  - apply stripped_paragraphs_nil in Hb. rewrite Hb in Hcat.
    by rewrite (concat_nil_groups groups Hgood Hcat).
  - destruct groups as [|g groups]; [|simpl; lia].
    simpl in Hcat. symmetry in Hcat.
    apply stripped_paragraphs_nil in Hcat. congruence.
Qed.

(** C3, as amended.  The chunks are the blank-line joins of consecutive
    groups of the stripped, non-empty source paragraphs: no paragraph is
    truncated or dropped.  A group is a single paragraph, whatever its
    length, or several paragraphs whose own characters total at most 500. *)
Theorem split_document_chunks_are_paragraph_groups text path :
  exists groups,
    concat groups = stripped_paragraphs text /\
    _split_document text path = List.map join_blank_line groups /\
    Forall chunk_group groups.
Proof.
  destruct (split_document_groups text path) as (groups & ? & ? & ? & _).
  by exists groups.
Qed.

(** C3, as stated, fails: a single paragraph of 501 characters comes back
    whole, as one chunk of 501 characters. *)
Lemma split_document_long_paragraph_not_truncated :
  _split_document (replicate_char 501 "a") "doc.txt" = [replicate_char 501 "a"] /\
  String.length (replicate_char 501 "a") = 501 /\
  ~ chunks_bounded_as_specified.
Proof.
  assert (_split_document (replicate_char 501 "a") "doc.txt"
          = [replicate_char 501 "a"]) as Hrun by (vm_compute; reflexivity).
  assert (String.length (replicate_char 501 "a") = 501) as Hlen
    by (vm_compute; reflexivity).
  split; [done|]. split; [done|].
  intros Hclaim.
  destruct (Hclaim (replicate_char 501 "a") "doc.txt" (replicate_char 501 "a")) as [Hle|Hex].
  - rewrite Hrun. by left.
  - rewrite Hlen in Hle. lia.
  - destruct Hex as (_ & _ & _ & Heq). rewrite Hlen in Heq. lia.
Qed.

(** Two paragraphs of 300 and 199 characters pass the size check
    ([300 + 199 <= 500]) and are joined with the separator into one chunk of
    501 characters. *)
Example split_document_separator_not_counted :
  List.map String.length
    (_split_document
       (replicate_char 300 "a" +:+ blank_line +:+ replicate_char 199 "b") "doc.txt")
  = [501].
Proof. vm_compute. reflexivity. Qed.

End ChunkerClaims.

(** * The keyword matcher *)

Section Matcher.

Lemma Qltb_lt x y : Qltb x y = true <-> (x < y)%Q.
Proof. unfold Qltb, Qlt. apply Z.ltb_lt. Qed.

Lemma Qltb_ge x y : Qltb x y = false <-> (y <= x)%Q.
Proof. unfold Qltb, Qle. apply Z.ltb_ge. Qed.

Lemma overlap_le_total (a b : gset string) : size (a ∩ b) <= size (a ∪ b).
Proof.
  apply subseteq_size. intros x [Ha _]%elem_of_intersection.
  apply elem_of_union. by left.
Qed.

(** Where the two sets share a word the guarded quotient of the code is
    the Jaccard similarity. *)
Lemma overlap_score_jaccard (a b : gset string) :
  a ∩ b <> ∅ -> overlap_score a b = jaccard a b.
Proof.
  intros Hne. unfold overlap_score, jaccard.
  assert (size (a ∩ b) <> 0) as Hsz.
  { intros Hz. apply size_empty_inv in Hz. by apply leibniz_equiv in Hz. }
  pose proof (overlap_le_total a b).
  destruct (0 <? size (a ∪ b))%nat eqn:Hlt; [done|].
  apply Nat.ltb_ge in Hlt. lia.
Qed.

Lemma overlap_score_range (a b : gset string) :
  (0 <= overlap_score a b <= 1)%Q.
Proof.
  unfold overlap_score. pose proof (overlap_le_total a b) as Hle.
  destruct (0 <? size (a ∪ b))%nat eqn:Hlt; [|split; discriminate].
  apply Nat.ltb_lt in Hlt.
  assert (0 < inject_Z (Z.of_nat (size (a ∪ b))))%Q as Hpos.
  { rewrite <- (Zlt_Qlt 0). lia. }
  split.
  - apply Qle_shift_div_l; [done|]. rewrite Qmult_0_l.
    rewrite <- (Zle_Qle 0). lia.
  - apply Qle_shift_div_r; [done|]. rewrite Qmult_1_l.
    rewrite <- Zle_Qle. lia.
Qed.

Lemma overlap_score_positive (a b : gset string) :
  Qltb 0 (overlap_score a b) = true <-> a ∩ b <> ∅.
Proof.
  rewrite Qltb_lt. unfold overlap_score.
  pose proof (overlap_le_total a b) as Hle. split.
  - intros Hlt Hempty. rewrite Hempty, size_empty in Hlt.
    destruct (0 <? _)%nat; [|by apply Qlt_irrefl in Hlt].
    unfold Qdiv in Hlt. rewrite Qmult_0_l in Hlt. by apply Qlt_irrefl in Hlt.
  - intros Hne.
    assert (size (a ∩ b) <> 0) as Hsz.
  { intros Hz. apply size_empty_inv in Hz. by apply leibniz_equiv in Hz. }
    assert ((0 <? size (a ∪ b))%nat = true) as -> by (apply Nat.ltb_lt; lia).
    apply Qlt_shift_div_l.
    + rewrite <- (Zlt_Qlt 0). lia.
    + rewrite Qmult_0_l. rewrite <- (Zlt_Qlt 0). lia.
Qed.

(** One turn of the loop, read through [candidate_text]. *)
Lemma fallback_loop_cons env qw module tags row rest results :
  fallback_loop env qw module tags (row :: rest) results
  = match candidate_text env module tags row with
    | Some text =>
        if Qltb 0 (overlap_score qw (word_set text))
        then fallback_loop env qw module tags rest
               (results ++ [ {| res_id := VInt (row_id row);
                                res_module := value_of_opt (row_module row);
                                res_tags := value_of_opt (row_tags row);
                                res_score := overlap_score qw (word_set text);
                                res_excerpt := excerpt_of text;
                                res_path := value_of_opt (row_path row) |} ])
        else fallback_loop env qw module tags rest results
    | None => fallback_loop env qw module tags rest results
    end.
Proof.
  simpl fallback_loop. unfold candidate_text, module_matches, tags_match.
  rewrite bool_decide_not.
  destruct (opt_truthy module), (bool_decide (row_module row = module)),
    (opt_truthy tags), (bool_decide (_ ⊆ _)); simpl; try reflexivity;
    destruct (read_text env (row_path row)) as [text|]; try reflexivity;
    destruct (truthy text); reflexivity.
Qed.

(** The loop appends, in the order of the rows, exactly the candidates
    that share a word with the query, each scored by [jaccard]. *)
Lemma fallback_loop_spec env query module tags rows : forall results,
  fallback_loop env (word_set query) module tags rows results
  = results ++ overlapping_candidates env query module tags rows.
Proof.
  induction rows as [|row rest IH]; intros results.
  { simpl. by rewrite app_nil_r. }
  rewrite fallback_loop_cons. unfold overlapping_candidates. simpl flat_map.
  fold (overlapping_candidates env query module tags rest).
  destruct (candidate_text env module tags row) as [text|]; [|apply IH].
  destruct (decide (word_set query ∩ word_set text = ∅)) as [Hempty|Hne].
  - destruct (Qltb 0 _) eqn:Hpos; [|apply IH].
    apply overlap_score_positive in Hpos. done.
  - rewrite (proj2 (overlap_score_positive _ _) Hne).
    rewrite IH, <- app_assoc. simpl.
    unfold jaccard_result. by rewrite overlap_score_jaccard.
Qed.

(** ** Sorting *)

Lemma insert_desc_perm r l : Permutation (insert_desc r l) (r :: l).
Proof.
  induction l as [|x l IH]; simpl; [done|].
  destruct (Qltb (res_score r) (res_score x)); [|done].
  rewrite IH. apply perm_swap.
Qed.

Lemma sort_desc_perm l : Permutation (sort_desc l) l.
Proof.
  induction l as [|r l IH]; simpl; [done|].
  rewrite insert_desc_perm. by constructor.
Qed.

Lemma insert_desc_sorted r l :
  StronglySorted score_ge l -> StronglySorted score_ge (insert_desc r l).
Proof.
  induction l as [|x l IH]; intros Hs; simpl.
  { constructor; constructor. }
  apply StronglySorted_inv in Hs as [Hl Hx].
  destruct (Qltb (res_score r) (res_score x)) eqn:Hlt.
  - constructor; [by apply IH|].
    rewrite insert_desc_perm.
    constructor; [|done]. apply Qltb_lt in Hlt. by apply Qlt_le_weak.
  - apply Qltb_ge in Hlt. constructor; [by constructor|].
    constructor; [done|].
    eapply Forall_impl; [exact Hx|]. intros y Hy.
    unfold score_ge in *. by apply (Qle_trans _ (res_score x)).
Qed.

Lemma sort_desc_sorted l : StronglySorted score_ge (sort_desc l).
Proof.
  induction l as [|r l IH]; simpl; [constructor|]. by apply insert_desc_sorted.
Qed.

(** ** Slices *)

Lemma slice_to_nonneg {A} (k : Z) (l : list A) :
  (0 <= k)%Z -> slice_to k l = firstn (Z.to_nat k) l.
Proof. intros Hk. unfold slice_to. by rewrite (proj2 (Z.leb_le 0 k) Hk). Qed.

Lemma slice_to_length {A} (k : Z) (l : list A) :
  (0 <= k)%Z -> (Z.of_nat (length (slice_to k l)) <= k)%Z.
Proof.
  intros Hk. rewrite slice_to_nonneg by done.
  rewrite length_firstn. lia.
Qed.

Lemma In_firstn_In {A} (n : nat) (l : list A) x : In x (firstn n l) -> In x l.
Proof.
  revert l. induction n as [|n IH]; intros [|y l]; simpl; try done.
  intros [->|Hin]; [by left|right; by apply IH].
Qed.

Lemma slice_to_incl {A} (k : Z) (l : list A) x :
  In x (slice_to k l) -> In x l.
Proof.
  unfold slice_to. destruct (0 <=? k)%Z; apply In_firstn_In.
Qed.

End Matcher.

Section MatcherClaims.

Lemma jaccard_positive (a b : gset string) : a ∩ b <> ∅ -> (0 < jaccard a b)%Q.
Proof.
  intros Hne. rewrite <- overlap_score_jaccard by done.
  by apply Qltb_lt, overlap_score_positive.
Qed.

Lemma jaccard_zero (a b : gset string) : a ∩ b = ∅ -> (jaccard a b == 0)%Q.
Proof.
  intros Hempty. unfold jaccard. rewrite Hempty, size_empty.
  unfold Qdiv. apply Qmult_0_l.
Qed.

Lemma overlapping_candidates_positive env query module tags rows :
  Forall (fun r => (0 < res_score r)%Q)
    (overlapping_candidates env query module tags rows).
Proof.
  apply List.Forall_forall. intros r Hin. unfold overlapping_candidates in Hin.
  apply in_flat_map in Hin as (row & _ & Hin).
  destruct (candidate_text env module tags row) as [text|]; [|done].
  destruct (decide (_ = ∅)) as [|Hne]; [done|].
  destruct Hin as [<-|[]]. simpl. by apply jaccard_positive.
Qed.

Lemma fallback_search_ranked env query k module tags rows :
  db_documents env = Ok rows ->
  _fallback_search env query k module tags
  = Ok (slice_to k (sort_desc (overlapping_candidates env query module tags rows))).
Proof.
  intros Hdb. unfold _fallback_search. rewrite Hdb. simpl.
  by rewrite fallback_loop_spec.
Qed.

(** C6.  The keyword matcher returns the first [k] of a ranking of the
    candidates that share a word with the query: the ranking holds exactly
    those candidates, each scored by the Jaccard similarity of the
    lowercase word sets of the query and of the file content (so every
    score is positive: a candidate of score zero is left out), and it is
    ordered by descending score. *)
Theorem fallback_search_jaccard_top_k env query k module tags rows :
  db_documents env = Ok rows ->
  (0 <= k)%Z ->
  exists ranked,
    Permutation ranked (overlapping_candidates env query module tags rows) /\
    Forall (fun r => (0 < res_score r)%Q) ranked /\
    StronglySorted score_ge ranked /\
    _fallback_search env query k module tags = Ok (firstn (Z.to_nat k) ranked).
Proof.
  intros Hdb Hk.
  exists (sort_desc (overlapping_candidates env query module tags rows)).
  split; [apply sort_desc_perm|]. split.
  { rewrite sort_desc_perm. apply overlapping_candidates_positive. }
  split; [apply sort_desc_sorted|].
  rewrite (fallback_search_ranked _ _ _ _ _ rows Hdb).
  by rewrite slice_to_nonneg.
Qed.

Lemma fallback_search_jaccard_top_k_sample :
  exists ranked,
    Permutation ranked
      (overlapping_candidates Sample.env "refunds days" None None Sample.rows) /\
    Forall (fun r => (0 < res_score r)%Q) ranked /\
    StronglySorted score_ge ranked /\
    _fallback_search Sample.env "refunds days" 2 None None
    = Ok (firstn (Z.to_nat 2) ranked).
Proof.
  apply (fallback_search_jaccard_top_k Sample.env "refunds days" 2 None None Sample.rows).
  - reflexivity.
  - lia.
Defined.

(** A zero-score candidate is left out: the note shares no word with the
    query. *)
Example fallback_search_drops_zero_score :
  List.map res_id
    (default [] (match _fallback_search Sample.env "policy" 5 None None with
                 | Ok rs => Some rs | Raise _ => None end))
  = [VInt 2].
Proof. vm_compute. reflexivity. Qed.

Lemma candidate_text_ext env1 env2 module tags row :
  read_text env1 (row_path row) = read_text env2 (row_path row) ->
  candidate_text env1 module tags row = candidate_text env2 module tags row.
Proof. unfold candidate_text. by intros ->. Qed.

Lemma read_text_ext env1 env2 path :
  (forall p, path = Some p -> fs env1 p = fs env2 p) ->
  read_text env1 path = read_text env2 path.
Proof.
  intros Hfs. unfold read_text. destruct path as [p|]; [|done].
  by rewrite (Hfs p).
Qed.

Lemma overlapping_candidates_ext env1 env2 query module tags rows :
  (forall row p, In row rows -> row_path row = Some p -> fs env1 p = fs env2 p) ->
  overlapping_candidates env1 query module tags rows
  = overlapping_candidates env2 query module tags rows.
Proof.
  intros Hfs. unfold overlapping_candidates.
  induction rows as [|row rest IH]; [done|]. simpl.
  rewrite (candidate_text_ext env1 env2).
  - f_equal. apply IH. intros r p Hin. apply Hfs. by right.
  - apply read_text_ext. intros p. apply Hfs. by left.
Qed.

(** C9.  The keyword matcher depends on nothing but the document rows, the
    content of the files the rows name, and the query arguments: where
    these are the same, two invocations return the same ordered results
    (or raise the same database error). *)
Theorem fallback_search_deterministic env1 env2 query k module tags :
  db_documents env1 = db_documents env2 ->
  (forall rows row p,
      db_documents env1 = Ok rows -> In row rows -> row_path row = Some p ->
      fs env1 p = fs env2 p) ->
  _fallback_search env1 query k module tags
  = _fallback_search env2 query k module tags.
Proof.
  intros Hdb Hfs.
  destruct (db_documents env1) as [rows|e] eqn:Hdb1.
  - rewrite (fallback_search_ranked env1 _ _ _ _ rows Hdb1).
    rewrite (fallback_search_ranked env2 _ _ _ _ rows) by done.
    rewrite (overlapping_candidates_ext env1 env2); [done|].
    intros row p. by apply Hfs.
  - unfold _fallback_search. by rewrite Hdb1, <- Hdb.
Qed.

Lemma fallback_search_deterministic_sample :
  _fallback_search Sample.env "refunds days" 2 None (Some "policy")
  = _fallback_search Sample.env_and_more "refunds days" 2 None (Some "policy").
Proof.
  apply (fallback_search_deterministic Sample.env Sample.env_and_more).
  - reflexivity.
  - intros rows row p Hrows Hin Hpath.
    injection Hrows as <-.
    simpl in Hin. destruct Hin as [<-|[<-|[<-|[]]]];
      injection Hpath as <-; reflexivity.
Defined.

End MatcherClaims.

(** * The similarity path and [search] *)

Section Search.

Context `{CollectionAPI Store}.

Lemma max0_nonneg x : (0 <= max0 x)%Q.
Proof.
  unfold max0. destruct (Qltb 0 x) eqn:Hlt; [|discriminate].
  apply Qltb_lt in Hlt. by apply Qlt_le_weak.
Qed.

Lemma max0_le_1 x : (x <= 1)%Q -> (max0 x <= 1)%Q.
Proof. unfold max0. destruct (Qltb 0 x); [done|discriminate]. Qed.

(** Runs through the statements of the loop body: each one either raises,
    which ends the case, or gives a value. *)
Ltac run_loop_body :=
  repeat match goal with
         | |- context [metadata_tags ?m] => destruct (metadata_tags m); simpl; [|done]
         | |- context [bool_decide ?P] => destruct (bool_decide P); simpl; [|done]
         | |- context [metadata_item ?m ?key] =>
             destruct (metadata_item m key); simpl; [|done]
         | |- context [match ?o with Some _ => _ | None => Raise _ end] =>
             destruct o; simpl; [|done]
         end.

(** What a successful pass through the loop body tells about the result. *)
Lemma process_neighbor_some tags doc metadata distance r :
  process_neighbor tags (doc, metadata, distance) = Ok (Some r) ->
  passes_tag_filter tags (doc, metadata, distance) = true /\
  metadata_item metadata "tags" = Ok (res_tags r) /\
  exists d, distance = Some d /\ res_score r = max0 (1 - d).
Proof.
  unfold process_neighbor, passes_tag_filter. simpl.
  destruct (opt_truthy tags); simpl; run_loop_body;
    intros [= <-]; simpl; eauto.
Qed.

Lemma process_neighbor_none tags nb :
  process_neighbor tags nb = Ok None -> passes_tag_filter tags nb = false.
Proof.
  destruct nb as [[doc metadata] distance].
  unfold process_neighbor, passes_tag_filter. simpl.
  destruct (opt_truthy tags); simpl.
  - destruct (metadata_tags metadata); simpl; [|done].
    destruct (bool_decide _); simpl; [|done].
    run_loop_body. done.
  - run_loop_body. done.
Qed.

(** The loop never holds more than [k] results when [k] is positive. *)
Lemma process_results_length k tags items : forall acc results,
  (Z.of_nat (length acc) < k)%Z ->
  process_results k tags items acc = Ok results ->
  (Z.of_nat (length results) <= k)%Z.
Proof.
  induction items as [|nb rest IH]; intros acc results Hacc; simpl.
  { intros [= <-]. lia. }
  destruct (process_neighbor tags nb) as [[r|]|e]; [| |done].
  - destruct (k <=? _)%Z eqn:Hk.
    + intros [= <-]. rewrite List.length_app. simpl. lia.
    + apply Z.leb_gt in Hk. apply IH. lia.
  - by apply IH.
Qed.

(** A property of every appended result holds of the whole output. *)
Lemma process_results_forall (P : Result -> Prop) k tags items :
  forall acc results,
  Forall P acc ->
  (forall nb r, In nb items -> process_neighbor tags nb = Ok (Some r) -> P r) ->
  process_results k tags items acc = Ok results ->
  Forall P results.
Proof.
  induction items as [|nb rest IH]; intros acc results Hacc HP; simpl.
  { by intros [= <-]. }
  destruct (process_neighbor tags nb) as [[r|]|e] eqn:Hnb; [| |done].
  - assert (Forall P (acc ++ [r])) as Hacc'.
    { apply Forall_app. split; [done|]. constructor; [|done].
      apply (HP nb); [by left|done]. }
    destruct (k <=? _)%Z.
    + by intros [= <-].
    + apply IH; [done|]. intros nb' r' Hin. apply HP. by right.
  - apply IH; [done|]. intros nb' r' Hin. apply HP. by right.
Qed.

(** With [k <= 0] the loop stops at the first neighbour that passes the
    filter. *)
Lemma process_results_nonpositive_k k tags items results :
  (k <= 0)%Z ->
  process_results k tags items [] = Ok results ->
  (exists nb, In nb items /\ passes_tag_filter tags nb = true) ->
  exists r, results = [r].
Proof.
  intros Hk. induction items as [|nb rest IH]; simpl.
  { by intros _ (nb & [] & _). }
  destruct (process_neighbor tags nb) as [[r|]|e] eqn:Hnb; [| |done].
  - destruct (k <=? _)%Z eqn:Hle; [|apply Z.leb_gt in Hle; simpl in Hle; lia].
    intros [= <-] _. by exists r.
  - intros Hrun (nb' & [<-|Hin] & Hpass).
    + apply process_neighbor_none in Hnb. congruence.
    + apply IH; [done|]. by exists nb'.
Qed.

Lemma similarity_search_items store query k module tags results :
  similarity_search store query k module tags = Ok results ->
  results = [] \/
  exists answer,
    col_query store query (Z.min (k * 2) 20)
      (if opt_truthy module then module else None) = Ok answer /\
    process_results k tags (yielded_neighbours answer) [] = Ok results.
Proof.
  unfold similarity_search.
  destruct (col_query _ _ _ _) as [answer|e]; simpl; [|done].
  destruct (documents answer) as [[|[|d docs] ?]|] eqn:Hdocs;
    try (intros [= <-]; by left).
  destruct (metadatas answer) as [[|metas ?]|] eqn:Hmetas; simpl; try done.
  destruct (distances answer) as [[|dists ?]|] eqn:Hdists; simpl; try done.
  intros Hrun. right. exists answer. split; [done|].
  unfold yielded_neighbours. by rewrite Hdocs, Hmetas, Hdists.
Qed.

Lemma similarity_search_length store query k module tags results :
  (0 < k)%Z ->
  similarity_search store query k module tags = Ok results ->
  (Z.of_nat (length results) <= k)%Z.
Proof.
  intros Hk [->|(answer & _ & Hrun)]%similarity_search_items; [simpl; lia|].
  apply (process_results_length k tags (yielded_neighbours answer) []); [simpl; lia|done].
Qed.

Lemma similarity_search_forall (P : Result -> Prop) store query k module tags results :
  (forall nb r, process_neighbor tags nb = Ok (Some r) -> P r) ->
  similarity_search store query k module tags = Ok results ->
  Forall P results.
Proof.
  intros HP [->|(answer & _ & Hrun)]%similarity_search_items; [done|].
  apply (process_results_forall P k tags (yielded_neighbours answer) [] results);
    [done| |done].
  intros nb r _. apply HP.
Qed.

(** [search] returns what one of its two paths returns. *)
Lemma search_cases (self : VectorRAGTool Store) env query k module tags results :
  search self env query k module tags = Ok results ->
  (exists store, collection self = Some store /\
                 similarity_search store query k module tags = Ok results) \/
  _fallback_search env query k module tags = Ok results.
Proof.
  unfold search.
  destruct (model self) as [[]|]; [|by right].
  destruct (collection self) as [store|]; [|by right].
  unfold try_except.
  destruct (similarity_search store query k module tags) as [rs|e] eqn:Hsim.
  - intros [= <-]. left. by exists store.
  - by right.
Qed.

Lemma fallback_search_total env query k module tags rows :
  db_documents env = Ok rows ->
  exists results, _fallback_search env query k module tags = Ok results.
Proof. intros Hdb. rewrite (fallback_search_ranked _ _ _ _ _ rows Hdb). eauto. Qed.

Lemma fallback_search_length env query k module tags results :
  (0 <= k)%Z ->
  _fallback_search env query k module tags = Ok results ->
  (Z.of_nat (length results) <= k)%Z.
Proof.
  intros Hk. unfold _fallback_search.
  destruct (db_documents env) as [rows|e]; simpl; [|done].
  intros [= <-]. by apply slice_to_length.
Qed.

Lemma search_total (self : VectorRAGTool Store) env query k module tags rows :
  db_documents env = Ok rows ->
  exists results, search self env query k module tags = Ok results.
Proof.
  intros Hdb. unfold search.
  destruct (fallback_search_total env query k module tags rows Hdb) as [rs Hrs].
  destruct (model self) as [[]|]; [|eauto].
  destruct (collection self) as [store|]; [|eauto].
  unfold try_except.
  destruct (similarity_search store query k module tags); eauto.
Qed.

End Search.

Section SearchClaims.

Context `{CollectionAPI Store}.

(** C1.  With a positive [k], whatever [search] returns has at most [k]
    results, and so has what each of its two paths returns; and [search]
    does return whenever the document table can be read. *)
Theorem search_returns_at_most_k (self : VectorRAGTool Store) env query k module tags :
  (0 < k)%Z ->
  (forall results,
      search self env query k module tags = Ok results ->
      (Z.of_nat (length results) <= k)%Z) /\
  (forall store results,
      similarity_search store query k module tags = Ok results ->
      (Z.of_nat (length results) <= k)%Z) /\
  (forall results,
      _fallback_search env query k module tags = Ok results ->
      (Z.of_nat (length results) <= k)%Z) /\
  (forall rows,
      db_documents env = Ok rows ->
      exists results,
        search self env query k module tags = Ok results /\
        (Z.of_nat (length results) <= k)%Z).
Proof.
  intros Hk.
  assert (forall results,
             search self env query k module tags = Ok results ->
             (Z.of_nat (length results) <= k)%Z) as Hsearch.
  { intros results [(store & _ & Hsim)|Hfb]%search_cases.
    - by apply (similarity_search_length store query k module tags).
    - apply (fallback_search_length env query k module tags); [lia|done]. }
  split; [done|]. split.
  { intros store results. by apply similarity_search_length. }
  split.
  { intros results. apply fallback_search_length. lia. }
  intros rows Hdb.
  destruct (search_total self env query k module tags rows Hdb) as [results Hrun].
  exists results. split; [done|]. by apply Hsearch.
Qed.

(** C2, amended.  When the body of the [try] block raises, whether in the
    query of the index or while its answer is processed, [search] is the
    keyword matcher called with the same [query], [k], [module] and
    [tags]: the exception of the similarity path is dropped.  The matcher
    runs unguarded inside the handler, so [search] raises exactly when
    [database.query] does, with that exception; with a readable document
    table it returns a sequence. *)
Theorem search_falls_back_on_exception (self : VectorRAGTool Store) env query k
    module tags store e :
  model self = Some () ->
  collection self = Some store ->
  similarity_search store query k module tags = Raise e ->
  search self env query k module tags = _fallback_search env query k module tags /\
  (forall rows,
      db_documents env = Ok rows ->
      exists results, search self env query k module tags = Ok results) /\
  (forall e',
      search self env query k module tags = Raise e' <->
      db_documents env = Raise e').
Proof.
  intros Hmodel Hcol Hraise.
  assert (search self env query k module tags
          = _fallback_search env query k module tags) as Heq.
  { unfold search. by rewrite Hmodel, Hcol, Hraise. }
  split; [done|]. split.
  - intros rows Hdb. rewrite Heq.
    by apply (fallback_search_total env query k module tags rows).
  - intros e'. rewrite Heq. unfold _fallback_search.
    destruct (db_documents env) as [rows|e'']; simpl; [by split|].
    split; intros [= <-]; reflexivity.
Qed.

(** The exceptions of the [try] block: [collection.query] raises, or an
    access to the answer does, or the body of the result loop does. *)
Lemma similarity_search_raises store query k module tags e :
  similarity_search store query k module tags = Raise e ->
  col_query store query (Z.min (k * 2) 20)
    (if opt_truthy module then module else None) = Raise e
  \/ exists answer,
       col_query store query (Z.min (k * 2) 20)
         (if opt_truthy module then module else None) = Ok answer /\
       (first_list (metadatas answer) = Raise e \/
        first_list (distances answer) = Raise e \/
        process_results k tags (yielded_neighbours answer) [] = Raise e).
Proof.
  unfold similarity_search.
  destruct (col_query _ _ _ _) as [answer|e']; simpl; [|intros [= <-]; by left].
  intros Hrun. right. exists answer. split; [done|].
  unfold yielded_neighbours.
  destruct (documents answer) as [[|[|d docs] ?]|]; try done.
  destruct (first_list (metadatas answer)) as [metas|e1] eqn:Hmetas; simpl in Hrun;
    [|left; congruence].
  destruct (first_list (distances answer)) as [dists|e2] eqn:Hdists; simpl in Hrun;
    [|right; left; congruence].
  right. right.
  destruct (metadatas answer) as [[|? ?]|]; simpl in Hmetas; try done.
  destruct (distances answer) as [[|? ?]|]; simpl in Hdists; try done.
  injection Hmetas as ->. injection Hdists as ->. exact Hrun.
Qed.

Lemma parse_tags_empty : parse_tags "" = ∅.
Proof. reflexivity. Qed.

Lemma value_tags_of_opt o : value_tags (value_of_opt o) = parse_tags (or_empty o).
Proof. destruct o as [[|c s]|]; reflexivity. Qed.

(** The tag set the filter reads is the tag set of the [tags] value that
    goes into the result. *)
Lemma metadata_tags_item metadata doc_tags v :
  metadata_tags metadata = Ok doc_tags ->
  metadata_item metadata "tags" = Ok v ->
  doc_tags = value_tags v.
Proof.
  unfold metadata_tags, metadata_item.
  destruct metadata as [m|]; [|done].
  destruct (m !! "tags") as [v'|]; simpl; [|done].
  intros Htags [= <-]. revert Htags.
  destruct v' as [|[|c s]|[|p|p]|[]]; simpl; try congruence;
    by intros [= <-].
Qed.

Lemma process_neighbor_tags requested nb r :
  process_neighbor (Some requested) nb = Ok (Some r) ->
  parse_tags requested ⊆ value_tags (res_tags r).
Proof.
  destruct nb as [[doc metadata] distance].
  intros (Hpass & Htags & _)%process_neighbor_some.
  unfold passes_tag_filter in Hpass. simpl in Hpass.
  destruct (truthy requested) eqn:Htruthy.
  - destruct (metadata_tags metadata) as [doc_tags|] eqn:Hmd; [|done].
    apply bool_decide_eq_true in Hpass.
    by rewrite <- (metadata_tags_item metadata doc_tags (res_tags r)).
  - apply truthy_false in Htruthy as ->. rewrite parse_tags_empty.
    apply empty_subseteq.
Qed.

Lemma overlapping_candidates_tags env query module requested rows r :
  In r (overlapping_candidates env query module (Some requested) rows) ->
  parse_tags requested ⊆ value_tags (res_tags r).
Proof.
  unfold overlapping_candidates. intros (row & _ & Hin)%in_flat_map.
  unfold candidate_text in Hin.
  destruct (module_matches module row); simpl in Hin; [|done].
  destruct (tags_match _ _) eqn:Hmatch; [|done].
  destruct (read_text env (row_path row)) as [text|]; [|done].
  destruct (truthy text); [|done].
  destruct (decide (_ = ∅)); [done|].
  destruct Hin as [<-|[]]. simpl. rewrite value_tags_of_opt.
  unfold tags_match in Hmatch. simpl in Hmatch.
  destruct (truthy requested) eqn:Htruthy.
  - by apply bool_decide_eq_true in Hmatch.
  - apply truthy_false in Htruthy as ->. rewrite parse_tags_empty.
    apply empty_subseteq.
Qed.

Lemma fallback_search_in_candidates env query k module tags results rows r :
  db_documents env = Ok rows ->
  _fallback_search env query k module tags = Ok results ->
  In r results ->
  In r (overlapping_candidates env query module tags rows).
Proof.
  intros Hdb. rewrite (fallback_search_ranked _ _ _ _ _ rows Hdb).
  intros [= <-] Hin%slice_to_incl.
  by apply (Permutation_in _ (sort_desc_perm _)).
Qed.

(** C5.  When [search] is given a tags filter, every result it returns, on
    either path, carries a [tags] value whose tag set holds every requested
    tag; both sides are split on commas, stripped and lowercased. *)
Theorem search_results_hold_requested_tags (self : VectorRAGTool Store) env query k
    module requested results r :
  search self env query k module (Some requested) = Ok results ->
  In r results ->
  parse_tags requested ⊆ value_tags (res_tags r).
Proof.
  intros [(store & _ & Hsim)|Hfb]%search_cases Hin.
  - pose proof (similarity_search_forall
                  (fun r => parse_tags requested ⊆ value_tags (res_tags r))
                  store query k module (Some requested) results) as Hall.
    eapply List.Forall_forall in Hall; [exact Hall| |done|done].
    intros nb r'. apply process_neighbor_tags.
  - destruct (db_documents env) as [rows|e] eqn:Hdb.
    + apply (overlapping_candidates_tags env query module requested rows).
      by apply (fallback_search_in_candidates env query k module (Some requested) results).
    + unfold _fallback_search in Hfb. by rewrite Hdb in Hfb.
Qed.

End SearchClaims.

Section NonPositiveK.

Context `{CollectionAPI Store}.

Lemma zip3_nil_l {A B C} (b : list B) (c : list C) : zip3 (@nil A) b c = [].
Proof. reflexivity. Qed.

(** Where the answer yields neighbours, the [try] block is the result loop
    over them. *)
Lemma similarity_search_yielded store query k module tags answer :
  col_query store query (Z.min (k * 2) 20)
    (if opt_truthy module then module else None) = Ok answer ->
  yielded_neighbours answer <> [] ->
  similarity_search store query k module tags
  = process_results k tags (yielded_neighbours answer) [].
Proof.
  intros Hquery Hne. unfold similarity_search. rewrite Hquery. simpl.
  unfold yielded_neighbours in *.
  destruct (documents answer) as [[|docs ?]|]; try done.
  destruct (metadatas answer) as [[|metas ?]|]; try done.
  destruct (distances answer) as [[|dists ?]|]; try done.
  destruct docs as [|d docs]; [by rewrite zip3_nil_l in Hne|]. reflexivity.
Qed.

(** C10, as amended.  For [k <= 0] the keyword matcher returns nothing
    when [k] is zero, and for a negative [k] the ranking of the candidates
    without its last [|k|] results.  On the similarity path, when the
    answer of the index yields a neighbour that passes the tag filter and
    the [try] block completes, [search] returns exactly one result. *)
Theorem search_paths_for_nonpositive_k (self : VectorRAGTool Store) env query k
    module tags :
  (k <= 0)%Z ->
  (forall rows,
      db_documents env = Ok rows ->
      exists ranked,
        Permutation ranked (overlapping_candidates env query module tags rows) /\
        StronglySorted score_ge ranked /\
        _fallback_search env query k module tags
        = Ok (if (k =? 0)%Z then []
              else firstn (length ranked - Z.to_nat (- k)) ranked)) /\
  (forall store answer results,
      model self = Some () ->
      collection self = Some store ->
      col_query store query (Z.min (k * 2) 20)
        (if opt_truthy module then module else None) = Ok answer ->
      (exists nb, In nb (yielded_neighbours answer) /\
                  passes_tag_filter tags nb = true) ->
      similarity_search store query k module tags = Ok results ->
      search self env query k module tags = Ok results /\
      exists r, results = [r]).
Proof.
  intros Hk. split.
  - intros rows Hdb.
    exists (sort_desc (overlapping_candidates env query module tags rows)).
    split; [apply sort_desc_perm|]. split; [apply sort_desc_sorted|].
    rewrite (fallback_search_ranked _ _ _ _ _ rows Hdb). f_equal.
    unfold slice_to. destruct (k =? 0)%Z eqn:Hz.
    + apply Z.eqb_eq in Hz as ->. reflexivity.
    + apply Z.eqb_neq in Hz.
      assert ((0 <=? k)%Z = false) as -> by (apply Z.leb_gt; lia). reflexivity.
  - intros store answer results Hmodel Hcol Hquery Hpass Hsim. split.
    + unfold search. by rewrite Hmodel, Hcol, Hsim.
    + assert (yielded_neighbours answer <> []) as Hne.
      { destruct Hpass as (nb & Hin & _). by destruct (yielded_neighbours answer). }
      rewrite (similarity_search_yielded store query k module tags answer Hquery Hne)
        in Hsim.
      by apply (process_results_nonpositive_k k tags (yielded_neighbours answer)).
Qed.

End NonPositiveK.

Section Build.

Context `{CollectionAPI Store}.

(** C7.  When the collection reports a nonzero entry count,
    [_load_documents_if_needed] returns with the tool as it was, its
    collection included, and without a single batch handed to
    [collection.add]. *)
Theorem load_documents_if_needed_idempotent (self : VectorRAGTool Store) env store count :
  collection self = Some store ->
  col_count store = Ok count ->
  count <> 0 ->
  _load_documents_if_needed self env = Ok (self, []).
Proof.
  intros Hcol Hcount Hnz. unfold _load_documents_if_needed.
  rewrite Hcol, Hcount.
  assert ((0 <? count)%nat = true) as -> by (apply Nat.ltb_lt; lia).
  reflexivity.
Qed.

End Build.

(** * Scores *)

Section Scores.

Context `{CollectionAPI Store}.

(** On the keyword path a score is a Jaccard similarity, within [[0, 1]]. *)
Lemma fallback_scores_in_unit_interval env query k module tags results r :
  _fallback_search env query k module tags = Ok results ->
  In r results ->
  (0 <= res_score r <= 1)%Q.
Proof.
  intros Hrun Hin. destruct (db_documents env) as [rows|e] eqn:Hdb.
  - apply (fallback_search_in_candidates env query k module tags results rows r Hdb Hrun)
      in Hin.
    unfold overlapping_candidates in Hin.
    apply in_flat_map in Hin as (row & _ & Hin).
    destruct (candidate_text env module tags row) as [text|]; [|done].
    destruct (decide (_ = ∅)) as [|Hne]; [done|].
    destruct Hin as [<-|[]]. simpl.
    rewrite <- overlap_score_jaccard by done. apply overlap_score_range.
  - unfold _fallback_search in Hrun. by rewrite Hdb in Hrun.
Qed.

(** On the similarity path a score is never negative. *)
Lemma similarity_scores_nonneg store query k module tags results r :
  similarity_search store query k module tags = Ok results ->
  In r results ->
  (0 <= res_score r)%Q.
Proof.
  intros Hrun Hin.
  pose proof (similarity_search_forall (fun r => (0 <= res_score r)%Q)
                store query k module tags results) as Hall.
  eapply List.Forall_forall in Hall; [exact Hall| |done|done].
  intros [[doc metadata] distance] r' (_ & _ & d & _ & ->)%process_neighbor_some.
  apply max0_nonneg.
Qed.

(** It stays within 1 for a neighbour whose distance is not negative:
    nothing else bounds it from above. *)
Lemma process_neighbor_score_le_1 tags doc metadata d r :
  process_neighbor tags (doc, metadata, Some d) = Ok (Some r) ->
  (0 <= d)%Q ->
  (res_score r <= 1)%Q.
Proof.
  intros (_ & _ & d' & [= <-] & ->)%process_neighbor_some Hd.
  apply max0_le_1.
  destruct d as [n m]. unfold Qle in *. simpl in *. lia.
Qed.

End Scores.

(** * The claims on the sample corpus *)

(** C8 fails on the similarity path.  The index reports the nearest
    neighbour at the distance [-2^-23]; [max(0, 1 - distance)] is then
    [1 + 2^-23], and [search] returns a result with a score above 1. *)
Theorem search_score_above_one :
  search (Sample.tool_with (Sample.store_answering (Ok Sample.rounded_below_zero)))
    Sample.env "Refunds are processed" 3 None None
  = Ok [SampleResults.rounded_neighbour] /\
  res_score SampleResults.rounded_neighbour = (8388609 # 8388608)%Q /\
  (1 < res_score SampleResults.rounded_neighbour)%Q /\
  ~ scores_in_unit_interval.
Proof.
  assert (search (Sample.tool_with (Sample.store_answering (Ok Sample.rounded_below_zero)))
            Sample.env "Refunds are processed" 3 None None
          = Ok [SampleResults.rounded_neighbour]) as Hrun by (vm_compute; reflexivity).
  assert (1 < res_score SampleResults.rounded_neighbour)%Q as Hgt
    by (vm_compute; reflexivity).
  split; [done|]. split; [vm_compute; reflexivity|]. split; [done|].
  intros Hclaim.
  destruct (Hclaim _ _ _ _ _ _ _ SampleResults.rounded_neighbour Hrun) as [_ Hle];
    [by left|].
  by apply Qle_not_lt in Hle.
Qed.

Lemma search_returns_at_most_k_sample :
  exists results,
    search (Sample.tool_with (Sample.store_answering (Ok Sample.two_neighbours)))
      Sample.env "refunds" 1 None None = Ok results /\
    (Z.of_nat (length results) <= 1)%Z.
Proof.
  pose proof (search_returns_at_most_k
                (Sample.tool_with (Sample.store_answering (Ok Sample.two_neighbours)))
                Sample.env "refunds" 1 None None ltac:(lia)) as (_ & _ & _ & Hret).
  apply (Hret Sample.rows). reflexivity.
Defined.

Example search_stops_at_k :
  search (Sample.tool_with (Sample.store_answering (Ok Sample.two_neighbours)))
    Sample.env "refunds" 1 None None
  = Ok [SampleResults.first_neighbour].
Proof. vm_compute. reflexivity. Qed.

Lemma search_falls_back_on_exception_sample :
  search (Sample.tool_with (Sample.store_answering (Raise (BackendError "unavailable"))))
    Sample.env "refunds days" 2 None None
  = _fallback_search Sample.env "refunds days" 2 None None /\
  (forall rows,
      db_documents Sample.env = Ok rows ->
      exists results,
        search (Sample.tool_with
                  (Sample.store_answering (Raise (BackendError "unavailable"))))
          Sample.env "refunds days" 2 None None = Ok results) /\
  (forall e',
      search (Sample.tool_with
                (Sample.store_answering (Raise (BackendError "unavailable"))))
        Sample.env "refunds days" 2 None None = Raise e' <->
      db_documents Sample.env = Raise e').
Proof.
  apply (search_falls_back_on_exception
           (Sample.tool_with (Sample.store_answering (Raise (BackendError "unavailable"))))
           Sample.env "refunds days" 2 None None
           (Sample.store_answering (Raise (BackendError "unavailable")))
           (BackendError "unavailable")).
  - reflexivity.
  - reflexivity.
  - reflexivity.
Defined.

(** C2, as stated, fails: the index raises, the keyword matcher is called
    in the handler, its [database.query] raises, and that exception
    reaches the caller of [search]. *)
Lemma search_propagates_database_error :
  similarity_search (Sample.store_answering (Raise (BackendError "unavailable")))
    "refunds days" 2 None None = Raise (BackendError "unavailable") /\
  search (Sample.tool_with (Sample.store_answering (Raise (BackendError "unavailable"))))
    Sample.env_without_table "refunds days" 2 None None
  = Raise (DatabaseError "no such table: documents") /\
  ~ no_exception_reaches_caller.
Proof.
  assert (search (Sample.tool_with
                    (Sample.store_answering (Raise (BackendError "unavailable"))))
            Sample.env_without_table "refunds days" 2 None None
          = Raise (DatabaseError "no such table: documents")) as Hrun
    by (vm_compute; reflexivity).
  split; [vm_compute; reflexivity|]. split; [done|]. intros Hclaim.
  destruct (Hclaim (Sample.tool_with
                      (Sample.store_answering (Raise (BackendError "unavailable"))))
              Sample.env_without_table "refunds days" 2%Z None None
              (Sample.store_answering (Raise (BackendError "unavailable")))
              (BackendError "unavailable") eq_refl eq_refl eq_refl)
    as [results Hok].
  rewrite Hrun in Hok. discriminate Hok.
Qed.

(** An exception of a metadata access: the answer lacks the key [path],
    the dictionary of the result cannot be built, and the keyword matcher
    answers instead. *)
Example search_falls_back_on_key_error :
  similarity_search (Sample.store_answering (Ok Sample.missing_path))
    "refunds days" 2 None None = Raise (KeyError "path") /\
  search (Sample.tool_with (Sample.store_answering (Ok Sample.missing_path)))
    Sample.env "refunds days" 2 None None
  = Ok [SampleResults.playbook; SampleResults.note].
Proof. split; vm_compute; reflexivity. Qed.

(** Without vector components [search] is the keyword matcher. *)
Example search_without_index :
  search Sample.tool_without_index Sample.env "refunds days" 2 None None
  = Ok [SampleResults.playbook; SampleResults.note].
Proof. vm_compute. reflexivity. Qed.

Lemma search_results_hold_requested_tags_sample :
  parse_tags "Policy , REFUNDS" ⊆ value_tags (res_tags SampleResults.second_neighbour).
Proof.
  apply (search_results_hold_requested_tags
           (Sample.tool_with (Sample.store_answering (Ok Sample.two_neighbours)))
           Sample.env "refunds" 3 None "Policy , REFUNDS"
           [SampleResults.second_neighbour] SampleResults.second_neighbour).
  - vm_compute. reflexivity.
  - left. reflexivity.
Defined.

Example fallback_search_filters_tags :
  _fallback_search Sample.env "refunds days" 3 None (Some "POLICY")
  = Ok [SampleResults.playbook; SampleResults.refunds].
Proof. vm_compute. reflexivity. Qed.

(** C10, as stated, fails: with [k = -1] the keyword matcher returns the
    ranking without its last result, here two results out of three. *)
Lemma fallback_search_negative_k_not_empty :
  _fallback_search Sample.env "refunds days" (-1) None None
  = Ok [SampleResults.playbook; SampleResults.note] /\
  ~ fallback_empty_for_nonpositive_k.
Proof.
  assert (_fallback_search Sample.env "refunds days" (-1) None None
          = Ok [SampleResults.playbook; SampleResults.note]) as Hrun
    by (vm_compute; reflexivity).
  split; [done|]. intros Hclaim.
  specialize (Hclaim Sample.env "refunds days" (-1)%Z None None _ ltac:(lia) Hrun).
  discriminate Hclaim.
Qed.

Lemma search_paths_for_nonpositive_k_sample :
  exists ranked,
    Permutation ranked
      (overlapping_candidates Sample.env "refunds days" None None Sample.rows) /\
    StronglySorted score_ge ranked /\
    _fallback_search Sample.env "refunds days" (-1) None None
    = Ok (if (-1 =? 0)%Z then []
          else firstn (length ranked - Z.to_nat (- -1)) ranked).
Proof.
  pose proof (search_paths_for_nonpositive_k
                (Sample.tool_with (Sample.store_answering (Ok Sample.two_neighbours)))
                Sample.env "refunds days" (-1) None None ltac:(lia)) as [Hfb _].
  apply (Hfb Sample.rows). reflexivity.
Defined.

(** With [k = 0] the similarity path returns one result where the keyword
    matcher returns none. *)
Example search_zero_k_paths_differ :
  search (Sample.tool_with (Sample.store_answering (Ok Sample.two_neighbours)))
    Sample.env "refunds days" 0 None None
  = Ok [SampleResults.first_neighbour] /\
  _fallback_search Sample.env "refunds days" 0 None None = Ok [].
Proof. split; vm_compute; reflexivity. Qed.

Lemma load_documents_if_needed_idempotent_sample :
  _load_documents_if_needed
    (Sample.tool_with (Sample.store_answering (Ok Sample.two_neighbours))) Sample.env
  = Ok (Sample.tool_with (Sample.store_answering (Ok Sample.two_neighbours)), []).
Proof.
  apply (load_documents_if_needed_idempotent
           (Sample.tool_with (Sample.store_answering (Ok Sample.two_neighbours)))
           Sample.env (Sample.store_answering (Ok Sample.two_neighbours)) 1).
  - reflexivity.
  - reflexivity.
  - lia.
Defined.

(** On an empty collection the load writes one batch with a chunk per
    document; run again on the tool it leaves, it writes nothing. *)
Example load_documents_twice :
  match _load_documents_if_needed (Sample.tool_with Sample.empty_store) Sample.env with
  | Ok (tool, writes) =>
      List.map (List.map entry_id) writes = [["1_0"; "2_0"; "3_0"]] /\
      _load_documents_if_needed tool Sample.env = Ok (tool, [])
  | Raise _ => False
  end.
Proof. vm_compute. split; reflexivity. Qed.

(** * Further properties *)

(** ** Excerpts and the module filter *)

Section Excerpts.

Context `{CollectionAPI Store}.

Lemma take_length n s : String.length (take n s) <= n.
Proof.
  revert s. induction n as [|n IH]; intros [|c s]; simpl; try lia.
  specialize (IH s). lia.
Qed.

Lemma excerpt_of_length text : String.length (excerpt_of text) <= 203.
Proof.
  unfold excerpt_of. destruct (200 <? String.length text)%nat eqn:Hlt.
  - rewrite str_length_app. pose proof (take_length 200 text) as Hle.
    change (String.length "...") with 3. lia.
  - apply Nat.ltb_ge in Hlt. lia.
Qed.



Lemma process_neighbor_excerpt tags doc metadata distance r :
  process_neighbor tags (doc, metadata, distance) = Ok (Some r) ->
  exists text, doc = Some text /\ res_excerpt r = excerpt_of text.
Proof.
  unfold process_neighbor.
  destruct (opt_truthy tags); simpl.
  - destruct (metadata_tags metadata); simpl; [|done].
    destruct (bool_decide _); simpl; [|done].
    destruct distance; simpl; [|done].
    destruct (metadata_item metadata "doc_id"); simpl; [|done].
    destruct (metadata_item metadata "module"); simpl; [|done].
    destruct (metadata_item metadata "tags"); simpl; [|done].
    destruct doc as [text|]; simpl; [|done].
    destruct (metadata_item metadata "path"); simpl; [|done].
    intros [= <-]. by exists text.
  - destruct distance; simpl; [|done].
    destruct (metadata_item metadata "doc_id"); simpl; [|done].
    destruct (metadata_item metadata "module"); simpl; [|done].
    destruct (metadata_item metadata "tags"); simpl; [|done].
    destruct doc as [text|]; simpl; [|done].
    destruct (metadata_item metadata "path"); simpl; [|done].
    intros [= <-]. by exists text.
Qed.

(** A member of the candidates comes from a row that passes the filters
    and whose file has content. *)
Lemma overlapping_candidates_inv env query module tags rows r :
  In r (overlapping_candidates env query module tags rows) ->
  exists row text,
    In row rows /\
    candidate_text env module tags row = Some text /\
    word_set query ∩ word_set text <> ∅ /\
    r = jaccard_result query row text.
Proof.
  unfold overlapping_candidates. intros (row & Hrow & Hin)%in_flat_map.
  destruct (candidate_text env module tags row) as [text|] eqn:Hcand; [|done].
  destruct (decide (_ = ∅)) as [|Hne]; [done|].
  destruct Hin as [<-|[]]. by exists row, text.
Qed.

(** A property that holds of what the loop body builds and of every
    candidate of the keyword matcher holds of every result of [search]. *)
Lemma search_results_forall (P : Result -> Prop) (self : VectorRAGTool Store)
    env query k module tags results :
  (forall nb r, process_neighbor tags nb = Ok (Some r) -> P r) ->
  (forall rows r,
      db_documents env = Ok rows ->
      In r (overlapping_candidates env query module tags rows) -> P r) ->
  search self env query k module tags = Ok results ->
  Forall P results.
Proof.
  intros Hsim Hfb [(store & _ & Hrun)|Hrun]%search_cases.
  - by apply (similarity_search_forall P store query k module tags).
  - destruct (db_documents env) as [rows|e] eqn:Hdb.
    + apply List.Forall_forall. intros r Hin. apply (Hfb rows); [done|].
      by apply (fallback_search_in_candidates env query k module tags results).
    + unfold _fallback_search in Hrun. by rewrite Hdb in Hrun.
Qed.




Lemma candidate_text_module env m tags row text :
  truthy m = true ->
  candidate_text env (Some m) tags row = Some text ->
  row_module row = Some m.
Proof.
  intros Hm. unfold candidate_text, module_matches. simpl. rewrite Hm.
  destruct (bool_decide (row_module row = Some m)) eqn:Hdec; [|done].
  intros _. by apply bool_decide_eq_true in Hdec.
Qed.

(** X2.  On the keyword path a non-empty [module] argument is an exact
    filter: every result carries that module. *)
Theorem fallback_search_module_filter env query k m tags results r :
  truthy m = true ->
  _fallback_search env query k (Some m) tags = Ok results ->
  In r results ->
  res_module r = VStr m.
Proof.
  intros Hm Hrun Hin. destruct (db_documents env) as [rows|e] eqn:Hdb.
  - apply (fallback_search_in_candidates env query k (Some m) tags results rows r Hdb Hrun)
      in Hin.
    apply overlapping_candidates_inv in Hin as (row & text & _ & Hcand & _ & ->).
    simpl. by rewrite (candidate_text_module env m tags row text Hm Hcand).
  - unfold _fallback_search in Hrun. by rewrite Hdb in Hrun.
Qed.

End Excerpts.


Lemma fallback_search_module_filter_sample :
  res_module SampleResults.playbook = VStr "sales".
Proof.
  apply (fallback_search_module_filter Sample.env "refunds days" 3 "sales" None
           [SampleResults.playbook; SampleResults.note] SampleResults.playbook).
  - reflexivity.
  - vm_compute. reflexivity.
  - left. reflexivity.
Defined.

(** ** Ties, word order and tag order *)

Section Ranking.

Lemma has_score_lt s r x :
  (res_score r < res_score x)%Q -> has_score s r = true -> has_score s x = false.
Proof.
  unfold has_score. intros Hlt Hr%Qeq_bool_iff.
  destruct (Qeq_bool (res_score x) s) eqn:Hx; [|done].
  apply Qeq_bool_iff in Hx. exfalso.
  apply (Qlt_not_eq _ _ Hlt). by rewrite Hr, Hx.
Qed.

(** Insertion does not change the order among results of one score. *)
Lemma filter_insert_desc s r l :
  List.filter (has_score s) (insert_desc r l) = List.filter (has_score s) (r :: l).
Proof.
  induction l as [|x l IH]; [done|]. simpl insert_desc.
  destruct (Qltb (res_score r) (res_score x)) eqn:Hlt; [|done].
  apply Qltb_lt in Hlt.
  change (List.filter (has_score s) (x :: insert_desc r l))
    with (if has_score s x then x :: List.filter (has_score s) (insert_desc r l)
          else List.filter (has_score s) (insert_desc r l)).
  rewrite IH. simpl.
  destruct (has_score s r) eqn:Hr; [|done].
  by rewrite (has_score_lt s r x Hlt Hr).
Qed.

Lemma filter_sort_desc s l :
  List.filter (has_score s) (sort_desc l) = List.filter (has_score s) l.
Proof.
  induction l as [|r l IH]; [done|]. simpl sort_desc.
  rewrite filter_insert_desc. simpl. by rewrite IH.
Qed.

(** X3.  The ranking of the keyword matcher is a stable sort: it is
    ordered by descending score, and the results of any one score stand in
    the order of their rows in the [documents] table. *)
Theorem fallback_search_ties_in_row_order env query k module tags rows :
  db_documents env = Ok rows ->
  exists ranked,
    _fallback_search env query k module tags = Ok (slice_to k ranked) /\
    StronglySorted score_ge ranked /\
    forall s,
      List.filter (has_score s) ranked
      = List.filter (has_score s) (overlapping_candidates env query module tags rows).
Proof.
  intros Hdb.
  exists (sort_desc (overlapping_candidates env query module tags rows)).
  split; [by apply fallback_search_ranked|].
  split; [apply sort_desc_sorted|]. intros s. apply filter_sort_desc.
Qed.

End Ranking.

Lemma fallback_search_ties_in_row_order_sample :
  exists ranked,
    _fallback_search Sample.env "days" 3 None None = Ok (slice_to 3 ranked) /\
    StronglySorted score_ge ranked /\
    forall s,
      List.filter (has_score s) ranked
      = List.filter (has_score s)
          (overlapping_candidates Sample.env "days" None None Sample.rows).
Proof.
  apply (fallback_search_ties_in_row_order Sample.env "days" 3 None None Sample.rows).
  reflexivity.
Defined.

Section WordSets.

Lemma lower_app s t : lower (s +:+ t) = lower s +:+ lower t.
Proof. induction s as [|c s IH]; [done|]. rewrite !app_cons. simpl. by rewrite IH. Qed.

Lemma isspace_lower_char c : isspace (lower_char c) = isspace c.
Proof. destruct c as [[] [] [] [] [] [] [] []]; reflexivity. Qed.

Lemma blank_lower s : blank (lower s) = blank s.
Proof.
  induction s as [|c s IH]; [done|]. simpl. by rewrite isspace_lower_char, IH.
Qed.

Lemma split_ws_blank s : blank s = true -> split_ws s = [].
Proof.
  induction s as [|c s IH]; [done|]. simpl.
  intros [Hc Hs]%andb_true_iff. rewrite Hc. auto.
Qed.

Lemma split_ws_head c s : isspace c = false -> split_ws (String c s) <> [].
Proof.
  intros Hc. simpl. rewrite Hc.
  destruct s as [|c' s]; [done|].
  destruct (isspace c'); [done|]. by destruct (split_ws (String c' s)).
Qed.

Lemma cons_first_app c l l' : l <> [] -> cons_first c (l ++ l') = cons_first c l ++ l'.
Proof. by destruct l. Qed.

(** Splitting at whitespace: the words on the two sides of a whitespace
    character. *)
Lemma split_ws_app_space s w t :
  isspace w = true ->
  split_ws (s +:+ String w t) = split_ws s ++ split_ws t.
Proof.
  intros Hw. induction s as [|c s IH].
  { rewrite app_empty_l. simpl. by rewrite Hw. }
  rewrite app_cons.
  change (split_ws (String c (s +:+ String w t)))
    with (if isspace c then split_ws (s +:+ String w t)
          else match s +:+ String w t with
               | "" => [String c ""]
               | String c' _ =>
                   if isspace c' then String c "" :: split_ws (s +:+ String w t)
                   else cons_first c (split_ws (s +:+ String w t))
               end).
  change (split_ws (String c s))
    with (if isspace c then split_ws s
          else match s with
               | "" => [String c ""]
               | String c' _ =>
                   if isspace c' then String c "" :: split_ws s
                   else cons_first c (split_ws s)
               end).
  destruct (isspace c); [exact IH|].
  destruct s as [|c' s].
  - rewrite app_empty_l. rewrite Hw. f_equal. simpl. by rewrite Hw.
  - rewrite app_cons in *. destruct (isspace c') eqn:Hc'.
    + by rewrite IH.
    + rewrite IH. apply cons_first_app. by apply split_ws_head.
Qed.

Lemma word_set_app_space s t :
  word_set (s +:+ " " +:+ t) = word_set s ∪ word_set t.
Proof.
  unfold word_set. rewrite lower_app.
  change (lower (" " +:+ t)) with (String " " (lower t)).
  rewrite split_ws_app_space by reflexivity.
  apply list_to_set_app_L.
Qed.

(** X4.  The keyword matcher reads the query as a set of words: two
    queries made of the same two parts in either order give the same
    results. *)
Theorem fallback_search_word_order env s t k module tags :
  _fallback_search env (s +:+ " " +:+ t) k module tags
  = _fallback_search env (t +:+ " " +:+ s) k module tags.
Proof.
  unfold _fallback_search. rewrite !word_set_app_space.
  by rewrite (comm_L (∪) (word_set s)).
Qed.

Lemma word_set_blank s : blank s = true -> word_set s = ∅.
Proof.
  intros Hb. unfold word_set. rewrite split_ws_blank; [done|].
  by rewrite blank_lower.
Qed.

Lemma overlapping_candidates_no_words env query module tags rows :
  word_set query = ∅ ->
  overlapping_candidates env query module tags rows = [].
Proof.
  intros Hempty. unfold overlapping_candidates.
  induction rows as [|row rest IH]; [done|]. simpl. rewrite IH, app_nil_r.
  destruct (candidate_text env module tags row) as [text|]; [|done].
  destruct (decide (_ = ∅)) as [|Hne]; [done|].
  exfalso. apply Hne. rewrite Hempty. apply (left_absorb_L ∅ (∩)).
Qed.

(** X6.  A query without any word, empty or all whitespace, matches
    nothing on the keyword path, whatever [k] and the filters. *)
Theorem fallback_search_blank_query env query k module tags rows :
  db_documents env = Ok rows ->
  blank query = true ->
  _fallback_search env query k module tags = Ok [].
Proof.
  intros Hdb Hblank.
  rewrite (fallback_search_ranked env query k module tags rows Hdb).
  rewrite overlapping_candidates_no_words by by apply word_set_blank.
  simpl. unfold slice_to. by destruct (0 <=? k)%Z, (Z.to_nat k).
Qed.

End WordSets.

Lemma fallback_search_blank_query_sample :
  _fallback_search Sample.env "   " 3 None None = Ok [].
Proof.
  apply (fallback_search_blank_query Sample.env "   " 3 None None Sample.rows).
  - reflexivity.
  - reflexivity.
Defined.

(** ** The requested tags as a set *)

Section TagOrder.

Context `{CollectionAPI Store}.

Lemma split_comma_not_nil s : split_comma s <> [].
Proof.
  destruct s as [|c s]; [done|]. simpl.
  destruct (is_comma c); [done|]. by destruct (split_comma s).
Qed.

Lemma split_comma_app_comma s t :
  split_comma (s +:+ String "," t) = split_comma s ++ split_comma t.
Proof.
  induction s as [|c s IH]; [done|].
  rewrite app_cons. simpl. rewrite IH.
  destruct (is_comma c); [done|].
  apply cons_first_app, split_comma_not_nil.
Qed.

Lemma parse_tags_app_comma s t :
  parse_tags (s +:+ "," +:+ t) = parse_tags s ∪ parse_tags t.
Proof.
  unfold parse_tags.
  change ("," +:+ t) with (String "," t).
  rewrite split_comma_app_comma, List.filter_app, List.map_app.
  apply list_to_set_app_L.
Qed.

Lemma parse_tags_swap s t :
  parse_tags (s +:+ "," +:+ t) = parse_tags (t +:+ "," +:+ s).
Proof. rewrite !parse_tags_app_comma. apply (comm_L (∪)). Qed.

Lemma truthy_app_comma s t : truthy (s +:+ "," +:+ t) = true.
Proof. apply truthy_true. by apply app_not_empty_r. Qed.

(** The two paths read the [tags] argument through its truth value and its
    parsed set only. *)
Lemma process_neighbor_tags_ext t1 t2 nb :
  truthy t1 = truthy t2 ->
  parse_tags t1 = parse_tags t2 ->
  process_neighbor (Some t1) nb = process_neighbor (Some t2) nb.
Proof.
  intros Htruthy Hparse. destruct nb as [[doc metadata] distance].
  unfold process_neighbor. simpl. by rewrite Htruthy, Hparse.
Qed.

Lemma process_results_tags_ext t1 t2 k items :
  truthy t1 = truthy t2 ->
  parse_tags t1 = parse_tags t2 ->
  forall acc,
    process_results k (Some t1) items acc = process_results k (Some t2) items acc.
Proof.
  intros Htruthy Hparse. induction items as [|nb rest IH]; intros acc; [done|].
  simpl. rewrite (process_neighbor_tags_ext t1 t2 nb Htruthy Hparse).
  destruct (process_neighbor (Some t2) nb) as [[r|]|e]; [|apply IH|done].
  destruct (k <=? _)%Z; [done|apply IH].
Qed.

Lemma similarity_search_tags_ext t1 t2 store query k module :
  truthy t1 = truthy t2 ->
  parse_tags t1 = parse_tags t2 ->
  similarity_search store query k module (Some t1)
  = similarity_search store query k module (Some t2).
Proof.
  intros Htruthy Hparse. unfold similarity_search.
  destruct (col_query _ _ _ _) as [answer|e]; simpl; [|done].
  destruct (documents answer) as [[|[|d docs] ?]|]; try done.
  destruct (first_list (metadatas answer)); simpl; [|done].
  destruct (first_list (distances answer)); simpl; [|done].
  by apply process_results_tags_ext.
Qed.

Lemma fallback_loop_tags_ext t1 t2 env qw module rows :
  truthy t1 = truthy t2 ->
  parse_tags t1 = parse_tags t2 ->
  forall results,
    fallback_loop env qw module (Some t1) rows results
    = fallback_loop env qw module (Some t2) rows results.
Proof.
  intros Htruthy Hparse. induction rows as [|row rest IH]; intros results; [done|].
  rewrite !fallback_loop_cons.
  assert (candidate_text env module (Some t1) row
          = candidate_text env module (Some t2) row) as ->.
  { unfold candidate_text, tags_match. simpl. by rewrite Htruthy, Hparse. }
  destruct (candidate_text env module (Some t2) row); [|apply IH].
  destruct (Qltb 0 _); apply IH.
Qed.

Lemma search_tags_ext t1 t2 (self : VectorRAGTool Store) env query k module :
  truthy t1 = truthy t2 ->
  parse_tags t1 = parse_tags t2 ->
  search self env query k module (Some t1) = search self env query k module (Some t2).
Proof.
  intros Htruthy Hparse.
  assert (_fallback_search env query k module (Some t1)
          = _fallback_search env query k module (Some t2)) as Hfb.
  { unfold _fallback_search. destruct (db_documents env); simpl; [|done].
    by rewrite (fallback_loop_tags_ext t1 t2). }
  unfold search. rewrite Hfb.
  destruct (model self), (collection self); try done.
  by rewrite (similarity_search_tags_ext t1 t2).
Qed.

(** X5.  The requested tags are read as a set: naming them in the other
    order gives the same outcome of [search], on either path. *)
Theorem search_tag_order (self : VectorRAGTool Store) env query k module s t :
  search self env query k module (Some (s +:+ "," +:+ t))
  = search self env query k module (Some (t +:+ "," +:+ s)).
Proof.
  apply search_tags_ext.
  - by rewrite !truthy_app_comma.
  - apply parse_tags_swap.
Qed.

End TagOrder.

(** ** The greatest score of the keyword matcher *)

Section TopScore.

Lemma size_pos_inject (n : nat) : n <> 0 -> ~ (inject_Z (Z.of_nat n) == 0)%Q.
Proof.
  intros Hn Heq. unfold Qeq in Heq. simpl in Heq. lia.
Qed.

(** X7.  The score of the keyword matcher is 1 exactly when the two word
    sets are equal and not empty. *)
Theorem overlap_score_one_iff (query_words doc_words : gset string) :
  (overlap_score query_words doc_words == 1)%Q
  <-> query_words = doc_words /\ query_words <> ∅.
Proof.
  unfold overlap_score.
  pose proof (overlap_le_total query_words doc_words) as Hle.
  destruct (0 <? size (query_words ∪ doc_words))%nat eqn:Hpos.
  - apply Nat.ltb_lt in Hpos.
    assert (~ (inject_Z (Z.of_nat (size (query_words ∪ doc_words))) == 0)%Q) as Hnz
      by (apply size_pos_inject; lia).
    split.
    + intros Hone.
      assert (inject_Z (Z.of_nat (size (query_words ∩ doc_words)))
              == inject_Z (Z.of_nat (size (query_words ∪ doc_words))))%Q as Heq.
      { rewrite <- (Qmult_div_r _ _ Hnz), Hone. apply Qmult_1_r. }
      unfold Qeq in Heq. simpl in Heq.
      assert (query_words ∩ doc_words = query_words ∪ doc_words) as Hsets.
      { apply (set_subseteq_size_eq (query_words ∩ doc_words) (query_words ∪ doc_words));
          [|lia].
        intros x [Hx _]%elem_of_intersection. apply elem_of_union. by left. }
      split.
      * apply set_eq. intros x. split; intros Hx.
        -- assert (x ∈ query_words ∩ doc_words) as Hin
             by (rewrite Hsets; apply elem_of_union; by left).
           by apply elem_of_intersection in Hin as [_ ?].
        -- assert (x ∈ query_words ∩ doc_words) as Hin
             by (rewrite Hsets; apply elem_of_union; by right).
           by apply elem_of_intersection in Hin as [? _].
      * intros Hq. rewrite Hq in Heq, Hpos.
        rewrite (left_absorb_L ∅ (∩)), size_empty in Heq. lia.
    + intros [<- _]. rewrite (idemp_L (∩)), (idemp_L (∪)).
      rewrite (idemp_L (∪)) in Hnz. unfold Qdiv. by apply Qmult_inv_r.
  - apply Nat.ltb_ge in Hpos. split.
    + intros Hone. discriminate Hone.
    + intros [<- Hne]. exfalso. rewrite (idemp_L (∪)) in Hpos.
      assert (size query_words = 0) as Hz by lia.
      apply size_empty_inv in Hz. by apply leibniz_equiv in Hz.
Qed.

End TopScore.

(** ** The similarity path as a whole *)

Section Similarity.

Context `{CollectionAPI Store}.

Lemma firstn_exact {A} (l l' : list A) n : length l = n -> firstn n (l ++ l') = l.
Proof.
  intros <-. rewrite firstn_app, Nat.sub_diag, firstn_all. simpl. apply app_nil_r.
Qed.

Lemma kept_results_cons tags nb rest :
  kept_results tags (nb :: rest)
  = match process_neighbor tags nb with
    | Ok (Some r) => r :: kept_results tags rest
    | _ => kept_results tags rest
    end.
Proof.
  unfold kept_results. simpl. unfold kept_result at 1.
  by destruct (process_neighbor tags nb) as [[r|]|e].
Qed.

(** Where no neighbour makes the loop body raise, the loop returns the
    first [k] of what it already holds followed by the kept results. *)
Lemma process_results_kept k tags items : forall acc,
  (Z.of_nat (length acc) < k)%Z ->
  (forall nb, In nb items -> exists o, process_neighbor tags nb = Ok o) ->
  process_results k tags items acc
  = Ok (firstn (Z.to_nat k) (acc ++ kept_results tags items)).
Proof.
  induction items as [|nb rest IH]; intros acc Hacc Hok.
  { simpl. rewrite app_nil_r, firstn_all2; [done|lia]. }
  destruct (Hok nb) as [o Ho]; [by left|].
  assert (forall nb', In nb' rest -> exists o, process_neighbor tags nb' = Ok o) as Hrest.
  { intros nb' Hin. apply Hok. by right. }
  simpl process_results. rewrite kept_results_cons, Ho.
  destruct o as [r|]; [|by apply IH].
  assert (acc ++ r :: kept_results tags rest = (acc ++ [r]) ++ kept_results tags rest)
    as -> by (by rewrite <- app_assoc).
  destruct (k <=? _)%Z eqn:Hk.
  - apply Z.leb_le in Hk. rewrite List.length_app in Hk. simpl in Hk. f_equal.
    symmetry. apply firstn_exact.
    rewrite List.length_app. simpl. lia.
  - apply Z.leb_gt in Hk. by apply IH.
Qed.

(** X8.  When the index answers with neighbours and none of them makes the
    loop body raise, [search] returns, for a positive [k], the results of
    the first [k] neighbours that pass the tag filter, in the order of the
    index. *)
Theorem search_returns_first_k_kept (self : VectorRAGTool Store) env query k module
    tags store answer :
  model self = Some () ->
  collection self = Some store ->
  (0 < k)%Z ->
  col_query store query (Z.min (k * 2) 20)
    (if opt_truthy module then module else None) = Ok answer ->
  yielded_neighbours answer <> [] ->
  (forall nb, In nb (yielded_neighbours answer) ->
              exists o, process_neighbor tags nb = Ok o) ->
  search self env query k module tags
  = Ok (firstn (Z.to_nat k) (kept_results tags (yielded_neighbours answer))).
Proof.
  intros Hmodel Hcol Hk Hquery Hne Hok. unfold search. rewrite Hmodel, Hcol.
  rewrite (similarity_search_yielded store query k module tags answer Hquery Hne).
  rewrite (process_results_kept k tags (yielded_neighbours answer) []); [done| |done].
  simpl. lia.
Qed.

(** Once the loop holds [k] results it has stopped: what follows in the
    list is not looked at. *)
Lemma process_results_full k tags items more : forall acc results,
  (Z.of_nat (length acc) < k)%Z ->
  process_results k tags items acc = Ok results ->
  Z.of_nat (length results) = k ->
  process_results k tags (items ++ more) acc = Ok results.
Proof.
  induction items as [|nb rest IH]; intros acc results Hacc.
  { simpl. intros [= <-]. lia. }
  simpl. destruct (process_neighbor tags nb) as [[r|]|e]; [| |done].
  - destruct (k <=? _)%Z eqn:Hk; [done|].
    apply Z.leb_gt in Hk. by apply IH.
  - by apply IH.
Qed.

(** X9.  Once [k] results are collected the rest of the answer is not
    examined: an index that answers with further neighbours after the same
    ones, whatever they hold, gives the same results and no exception. *)
Theorem similarity_search_ignores_neighbours_past_k store1 store2 query k module
    tags answer1 answer2 more results :
  (0 < k)%Z ->
  col_query store1 query (Z.min (k * 2) 20)
    (if opt_truthy module then module else None) = Ok answer1 ->
  col_query store2 query (Z.min (k * 2) 20)
    (if opt_truthy module then module else None) = Ok answer2 ->
  yielded_neighbours answer2 = yielded_neighbours answer1 ++ more ->
  similarity_search store1 query k module tags = Ok results ->
  Z.of_nat (length results) = k ->
  similarity_search store2 query k module tags = Ok results.
Proof.
  intros Hk Hq1 Hq2 Hmore Hrun Hlen.
  assert (yielded_neighbours answer1 <> []) as Hne1.
  { intros Hnil.
    apply similarity_search_items in Hrun as [->|(answer & Hq & Hrun)].
    - simpl in Hlen. lia.
    - rewrite Hq1 in Hq. injection Hq as <-. rewrite Hnil in Hrun.
      simpl in Hrun. injection Hrun as <-. simpl in Hlen. lia. }
  rewrite (similarity_search_yielded store1 query k module tags answer1 Hq1 Hne1) in Hrun.
  rewrite (similarity_search_yielded store2 query k module tags answer2 Hq2).
  - rewrite Hmore.
    apply (process_results_full k tags (yielded_neighbours answer1) more [] results);
      [simpl; lia|done|done].
  - rewrite Hmore. by destruct (yielded_neighbours answer1).
Qed.

End Similarity.

(** ** The loader *)

Section Loader.

Context `{CollectionAPI Store}.






(** The loop over the rows gathers the entries of each row in turn. *)
Lemma collect_entries_flat_map env rows : forall entries,
  collect_entries env rows entries = entries ++ flat_map (row_entries env) rows.
Proof.
  induction rows as [|row rest IH]; intros entries; simpl.
  { by rewrite app_nil_r. }
  unfold row_entries at 1.
  destruct (read_text env (row_path row)) as [text|]; [|apply IH].
  destruct (truthy (strip text)); simpl; [|apply IH].
  rewrite IH. by rewrite <- app_assoc.
Qed.


Lemma In_chunk_entries row chunks e :
  In e (chunk_entries row chunks) ->
  exists i chunk,
    chunks !! i = Some chunk /\
    entry_document e = chunk /\
    entry_id e = pretty (row_id row) +:+ "_" +:+ pretty i /\
    entry_metadata e
    = <["doc_id" := VInt (row_id row)]>
      (<["module" := value_of_opt (row_module row)]>
      (<["path" := value_of_opt (row_path row)]>
      (<["tags" := VStr (or_empty (row_tags row))]>
      (<["chunk_index" := VInt (Z.of_nat i)]> ∅)))).
Proof.
  unfold chunk_entries. intros Hin%list_elem_of_In.
  apply elem_of_lookup_imap in Hin as (i & chunk & -> & Hlook).
  by exists i, chunk.
Qed.

Lemma has_content_row_entries env row :
  has_content env row = true ->
  exists text,
    read_text env (row_path row) = Some text /\
    row_entries env row
    = chunk_entries row (_split_document text (default "" (row_path row))) /\
    _split_document text (default "" (row_path row)) <> [].
Proof.
  unfold has_content, row_entries.
  destruct (read_text env (row_path row)) as [text|]; [|done].
  intros Hblank. exists text. rewrite truthy_strip, Hblank.
  split; [done|]. split; [done|].
  destruct (split_document_groups text (default "" (row_path row)))
    as (groups & Hcat & -> & _ & _).
  destruct groups as [|g groups]; [|done].
  simpl in Hcat. symmetry in Hcat. apply stripped_paragraphs_nil in Hcat.
  rewrite Hcat in Hblank. done.
Qed.

Lemma split_document_chunk_not_empty text path chunk :
  In chunk (_split_document text path) -> chunk <> "".
Proof.
  destruct (split_document_groups text path) as (groups & _ & -> & Hgood & Htr).
  intros (g & <- & Hg)%in_map_iff.
  rewrite List.Forall_forall in Hgood, Htr.
  destruct (Hgood g Hg) as [Hne _].
  by destruct (join_trimmed g (Htr g Hg) Hne) as [? _].
Qed.

(** X11.  The documents that are indexed are those whose file can be read
    and is not blank: every entry comes from such a row, carries its
    document id and a chunk that is not empty, and every such row has an
    entry. *)
Theorem collect_entries_indexes_rows_with_content env rows :
  (forall e,
      In e (collect_entries env rows []) ->
      exists row,
        In row rows /\ has_content env row = true /\
        entry_metadata e !! "doc_id" = Some (VInt (row_id row)) /\
        entry_document e <> "") /\
  (forall row,
      In row rows -> has_content env row = true ->
      exists e,
        In e (collect_entries env rows []) /\
        entry_id e = pretty (row_id row) +:+ "_0" /\
        entry_metadata e !! "doc_id" = Some (VInt (row_id row))).
Proof.
  rewrite collect_entries_flat_map. simpl. split.
  - intros e (row & Hrow & Hin)%in_flat_map. exists row.
    unfold row_entries in Hin. unfold has_content.
    destruct (read_text env (row_path row)) as [text|]; [|done].
    rewrite truthy_strip in Hin.
    destruct (blank text); simpl in Hin; [done|].
    apply In_chunk_entries in Hin as (i & chunk & Hlook & Hdoc & _ & Hmd).
    repeat split; [done| |].
    + rewrite Hmd. apply lookup_insert_eq.
    + rewrite Hdoc. apply (split_document_chunk_not_empty text (default "" (row_path row))).
      apply list_elem_of_In. by apply list_elem_of_lookup_2 in Hlook.
  - intros row Hrow Hcontent.
    destruct (has_content_row_entries env row Hcontent) as (text & _ & Hentries & Hne).
    destruct (_split_document text (default "" (row_path row))) as [|chunk chunks] eqn:Hsplit;
      [done|].
    eexists. split.
    + apply in_flat_map. exists row. split; [done|].
      rewrite Hentries. unfold chunk_entries. simpl. left. reflexivity.
    + simpl. split; [done|]. apply lookup_insert_eq.
Qed.

End Loader.

(** ** From the loader to the results *)

Section Composition.

Context `{CollectionAPI Store}.

(** X12.  An entry written by the loader never makes the result loop
    raise: when the index gives it back as a neighbour, the loop body
    applies to it the tag filter the keyword matcher applies to its row,
    and builds the result from the fields of the row and the chunk. *)
Theorem loaded_entry_is_processed row chunks e distance tags :
  In e (chunk_entries row chunks) ->
  process_neighbor tags (neighbour_of e distance)
  = Ok (if tags_match tags (or_empty (row_tags row))
        then Some {| res_id := VInt (row_id row);
                     res_module := value_of_opt (row_module row);
                     res_tags := VStr (or_empty (row_tags row));
                     res_score := max0 (1 - distance);
                     res_excerpt := excerpt_of (entry_document e);
                     res_path := value_of_opt (row_path row) |}
        else None).
Proof.
  intros (i & chunk & _ & _ & _ & Hmd)%In_chunk_entries.
  unfold neighbour_of, process_neighbor, tags_match. rewrite Hmd.
  assert (forall doc_id md_module md_path md_tags index,
             metadata_tags
               (Some (<["doc_id" := doc_id]> (<["module" := md_module]>
                      (<["path" := md_path]> (<["tags" := VStr md_tags]>
                      (<["chunk_index" := index]> ∅))))))
             = Ok (parse_tags md_tags)) as Htags.
  { intros. unfold metadata_tags.
    rewrite !lookup_insert_ne, lookup_insert_eq by done. simpl.
    by destruct md_tags. }
  rewrite Htags. unfold metadata_item.
  rewrite lookup_insert_eq.
  rewrite (lookup_insert_ne _ "doc_id" "module"), lookup_insert_eq by done.
  rewrite (lookup_insert_ne _ "doc_id" "tags"), (lookup_insert_ne _ "module" "tags"),
    (lookup_insert_ne _ "path" "tags"), lookup_insert_eq by done.
  rewrite (lookup_insert_ne _ "doc_id" "path"), (lookup_insert_ne _ "module" "path"),
    lookup_insert_eq by done.
  destruct (opt_truthy tags); simpl; [|done].
  by destruct (bool_decide _).
Qed.

End Composition.

(** ** Construction *)

Section Construction.

Context `{CollectionAPI Store}.

(** The load keeps the model and leaves a collection in place. *)
Lemma load_documents_if_needed_keeps_components (self self' : VectorRAGTool Store)
    env writes m store :
  model self = Some m ->
  collection self = Some store ->
  _load_documents_if_needed self env = Ok (self', writes) ->
  model self' = Some m /\ exists store', collection self' = Some store'.
Proof.
  intros Hmodel Hcol. unfold _load_documents_if_needed. rewrite Hcol.
  assert (_load_all_documents self env = Ok (self', writes) ->
          model self' = Some m /\ exists store', collection self' = Some store') as Hall.
  { unfold _load_all_documents. rewrite Hmodel, Hcol.
    destruct (db_documents env) as [rows|e]; simpl; [|done].
    destruct (collect_entries env rows []) as [|e entries].
    - intros [= <- <-]. eauto.
    - destruct (add_batches _ _ _ _) as [store' ws]. intros [= <- <-]. simpl. eauto. }
  destruct (col_count store) as [count|e]; [|done].
  destruct (0 <? count)%nat; [|done].
  intros [= <- <-]. eauto.
Qed.

(** The load raises only the exception of [database.query]. *)
Lemma load_documents_if_needed_raises (self : VectorRAGTool Store) env e :
  _load_documents_if_needed self env = Raise e ->
  db_documents env = Raise e.
Proof.
  unfold _load_documents_if_needed.
  assert (_load_all_documents self env = Raise e -> db_documents env = Raise e) as Hall.
  { unfold _load_all_documents.
    destruct (model self); [|done]. destruct (collection self) as [store|]; [|done].
    destruct (db_documents env) as [rows|e']; simpl; [|by intros [= <-]].
    destruct (collect_entries env rows []); [done|].
    by destruct (add_batches _ _ _ _). }
  destruct (collection self) as [store|]; [|done].
  destruct (col_count store) as [count|e']; [|done].
  by destruct (0 <? count)%nat.
Qed.

(** X13.  Construction is all or nothing.  Either every step succeeded
    (the imports, [SentenceTransformer], [PersistentClient],
    [get_or_create_collection] and the load of the documents), and the
    tool is the one the load leaves, holding the model and a collection;
    or some step failed (the imports are missing, or the first of the
    other steps to fail raised, the load only with the exception of
    [database.query]), and the tool holds neither model nor collection,
    so that every [search] on it is the keyword matcher. *)
Theorem init_all_or_nothing (platform : Platform Store) collection_name env :
  let '(self, writes) := __init__ platform collection_name env in
  (exists m store,
      has_vector_deps platform = true /\
      sentence_transformer platform = Ok m /\
      persistent_client platform = Ok () /\
      get_or_create_collection platform collection_name = Ok store /\
      _load_documents_if_needed {| model := Some m; collection := Some store |} env
      = Ok (self, writes) /\
      model self = Some m /\
      exists store', collection self = Some store')
  \/ ((has_vector_deps platform = false \/
       has_vector_deps platform = true /\
       ((exists e, sentence_transformer platform = Raise e) \/
        (exists m e,
            sentence_transformer platform = Ok m /\
            persistent_client platform = Raise e) \/
        (exists m e,
            sentence_transformer platform = Ok m /\
            persistent_client platform = Ok () /\
            get_or_create_collection platform collection_name = Raise e) \/
        (exists m store e,
            sentence_transformer platform = Ok m /\
            persistent_client platform = Ok () /\
            get_or_create_collection platform collection_name = Ok store /\
            _load_documents_if_needed {| model := Some m; collection := Some store |} env
            = Raise e /\
            db_documents env = Raise e))) /\
      model self = None /\ collection self = None /\
      forall env' query k module tags,
        search self env' query k module tags
        = _fallback_search env' query k module tags).
Proof.
  unfold __init__. destruct (has_vector_deps platform).
  2:{ right. split; [by left|]. by split; [|split]. }
  unfold _initialize_vector_components.
  destruct (sentence_transformer platform) as [m|e]; simpl.
  2:{ right. split; [|by split; [|split]]. right. split; [done|]. left. by exists e. }
  destruct (persistent_client platform) as [[]|e]; simpl.
  2:{ right. split; [|by split; [|split]]. right. split; [done|]. right. left.
      by exists m, e. }
  destruct (get_or_create_collection platform collection_name) as [store|e]; simpl.
  2:{ right. split; [|by split; [|split]]. right. split; [done|]. right. right. left.
      by exists m, e. }
  destruct (_load_documents_if_needed _ env) as [[self writes]|e] eqn:Hload.
  2:{ right. split; [|by split; [|split]]. right. split; [done|]. right. right. right.
      exists m, store, e. split; [done|]. split; [done|]. split; [done|].
      split; [done|]. by apply load_documents_if_needed_raises in Hload. }
  left.
  destruct (load_documents_if_needed_keeps_components
              {| model := Some m; collection := Some store |} self env writes m store
              eq_refl eq_refl Hload) as [Hm [store' Hs]].
  exists m, store. split; [done|]. split; [done|]. split; [done|]. split; [done|].
  split; [done|]. split; [done|]. by exists store'.
Qed.

End Construction.

(** ** The adapters *)

Section AdapterTags.

Context `{CollectionAPI Store}.

Lemma search_results_tags requested (self : VectorRAGTool Store) env query k module
    results r :
  search self env query k module (Some requested) = Ok results ->
  In r results ->
  parse_tags requested ⊆ value_tags (res_tags r).
Proof.
  intros Hrun Hin.
  pose proof (search_results_forall
                (fun r => parse_tags requested ⊆ value_tags (res_tags r))
                self env query k module (Some requested) results) as Hall.
  eapply List.Forall_forall in Hall; [exact Hall| | |done|done].
  - intros nb r'. apply process_neighbor_tags.
  - intros rows r' _. apply overlapping_candidates_tags.
Qed.

Lemma parse_tags_single_word :
  parse_tags "policy" = {["policy"]} /\
  parse_tags "contracts" = {["contracts"]} /\
  parse_tags "incidents" = {["incidents"]} /\
  parse_tags "glossary" = {["glossary"]} /\
  parse_tags "metrics" = {["metrics"]}.
Proof. repeat split; unfold parse_tags; simpl; apply (right_id_L ∅ (∪)). Qed.

(** X14.  Each adapter returns only documents that carry its tags:
    [policy] for [search_policies], [contracts] for [search_contracts],
    [incidents] for [search_incidents], and both [glossary] and [metrics]
    for [search_definitions]. *)
Theorem adapters_results_carry_their_tags (self : VectorRAGTool Store) env query k
    results r :
  In r results ->
  (search_policies self env query k = Ok results ->
   "policy" ∈ value_tags (res_tags r)) /\
  (search_contracts self env query k = Ok results ->
   "contracts" ∈ value_tags (res_tags r)) /\
  (search_incidents self env query k = Ok results ->
   "incidents" ∈ value_tags (res_tags r)) /\
  (search_definitions self env query k = Ok results ->
   "glossary" ∈ value_tags (res_tags r) /\ "metrics" ∈ value_tags (res_tags r)).
Proof.
  intros Hin.
  destruct parse_tags_single_word as (Hp & Hc & Hi & Hg & Hm).
  split; [|split; [|split]]; intros Hrun.
  - apply (search_results_tags "policy" self env query k None results r Hrun Hin).
    rewrite Hp. by apply elem_of_singleton.
  - apply (search_results_tags "contracts" self env query k (Some "inventory")
             results r Hrun Hin).
    rewrite Hc. by apply elem_of_singleton.
  - apply (search_results_tags "incidents" self env query k None results r Hrun Hin).
    rewrite Hi. by apply elem_of_singleton.
  - pose proof (search_results_tags "glossary,metrics" self env query k None results r
                  Hrun Hin) as Hsub.
    change "glossary,metrics" with ("glossary" +:+ "," +:+ "metrics") in Hsub.
    rewrite (parse_tags_app_comma "glossary" "metrics"), Hg, Hm in Hsub.
    split; apply Hsub, elem_of_union; [left|right]; by apply elem_of_singleton.
Qed.

End AdapterTags.

(** ** More on the chunker *)

Section ChunkerMore.

Lemma join_app g h :
  g <> [] -> h <> [] ->
  join_blank_line (g ++ h) = join_blank_line g +:+ blank_line +:+ join_blank_line h.
Proof.
  induction g as [|a g IH]; [done|]. intros _ Hh.
  destruct g as [|b g].
  - destruct h as [|c h]; [done|]. reflexivity.
  - change ((a :: b :: g) ++ h) with (a :: b :: (g ++ h)).
    rewrite !join_cons.
    change (b :: g ++ h) with ((b :: g) ++ h).
    rewrite IH by done. by rewrite !app_assoc_str.
Qed.

Lemma join_concat groups :
  Forall (fun g => g <> []) groups ->
  join_blank_line (List.map join_blank_line groups) = join_blank_line (concat groups).
Proof.
  induction groups as [|g groups IH]; [done|].
  intros [Hg Hgs]%Forall_cons_iff. simpl concat.
  destruct groups as [|g' groups].
  { simpl. by rewrite app_nil_r. }
  change (List.map join_blank_line (g :: g' :: groups))
    with (join_blank_line g :: join_blank_line g' :: List.map join_blank_line groups).
  rewrite join_cons.
  change (join_blank_line g' :: List.map join_blank_line groups)
    with (List.map join_blank_line (g' :: groups)).
  rewrite IH by done.
  rewrite join_app; [done|done|].
  apply Forall_cons_iff in Hgs as [Hg' _]. simpl. by destruct g'.
Qed.

(** X15.  Chunking loses nothing and adds nothing: the chunks joined by
    blank lines are the stripped, non-empty paragraphs joined by blank
    lines; and every chunk is non-empty, without whitespace at either
    end. *)
Theorem split_document_preserves_paragraphs text path :
  join_blank_line (_split_document text path)
  = join_blank_line (stripped_paragraphs text) /\
  Forall trimmed (_split_document text path).
Proof.
  destruct (split_document_groups text path) as (groups & Hcat & -> & Hgood & Htr).
  split.
  - rewrite <- Hcat. apply join_concat.
    eapply Forall_impl; [exact Hgood|]. by intros g [? _].
  - apply List.Forall_forall. intros chunk (g & <- & Hg)%in_map_iff.
    rewrite List.Forall_forall in Hgood, Htr.
    destruct (Hgood g Hg) as [Hne _]. by apply join_trimmed; [apply Htr|].
Qed.

Lemma join_prefix_length g h :
  String.length (join_blank_line g) <= String.length (join_blank_line (g ++ h)).
Proof.
  destruct g as [|a g]; [simpl; lia|].
  destruct h as [|b h]; [by rewrite app_nil_r|].
  rewrite join_app by done. rewrite !str_length_app. lia.
Qed.

Lemma stripped_trimmed paragraphs :
  Forall trimmed (List.filter truthy (List.map strip paragraphs)).
Proof.
  induction paragraphs as [|p rest IH]; [constructor|]. simpl.
  destruct (truthy (strip p)) eqn:Hp; [|done].
  constructor; [|done]. by apply strip_trimmed, truthy_true.
Qed.

(** While everything fits, the loop only extends the buffer. *)
Lemma split_loop_no_flush paragraphs : forall chunks cur,
  Forall trimmed cur ->
  String.length
    (join_blank_line (cur ++ List.filter truthy (List.map strip paragraphs)))
  <= max_chunk_size ->
  split_loop paragraphs chunks (join_blank_line cur)
  = (chunks,
     join_blank_line (cur ++ List.filter truthy (List.map strip paragraphs))).
Proof.
  induction paragraphs as [|p rest IH]; intros chunks cur Htr Hlen.
  { simpl. by rewrite app_nil_r. }
  simpl split_loop. simpl List.map in *. simpl List.filter in *.
  destruct (truthy (strip p)) eqn:Hp; simpl negb; cbv iota; [|by apply IH].
  assert (trimmed (strip p)) as Htp by by apply strip_trimmed, truthy_true.
  rewrite (truthy_join cur Htr).
  assert (cur ++ strip p :: List.filter truthy (List.map strip rest)
          = (cur ++ [strip p]) ++ List.filter truthy (List.map strip rest)) as Hre
    by (by rewrite <- app_assoc).
  rewrite Hre in Hlen. rewrite Hre. clear Hre.
  destruct cur as [|a cur'].
  - rewrite andb_false_r. apply (IH chunks [strip p]); [by constructor|done].
  - rewrite andb_true_r.
    pose proof (join_prefix_length ((a :: cur') ++ [strip p])
                  (List.filter truthy (List.map strip rest))) as Hpre.
    rewrite join_snoc in Hpre by done. rewrite !str_length_app in Hpre.
    assert ((max_chunk_size <?
             String.length (join_blank_line (a :: cur')) + String.length (strip p))%nat
            = false) as -> by (apply Nat.ltb_ge; lia).
    rewrite <- (join_snoc (a :: cur')) by done.
    apply IH; [|done]. apply Forall_app. split; [done|by constructor].
Qed.

(** X16.  A text whose stripped paragraphs, joined by blank lines, make at
    most 500 characters is returned as one chunk: that join. *)
Theorem split_document_short_text text path :
  stripped_paragraphs text <> [] ->
  String.length (join_blank_line (stripped_paragraphs text)) <= 500 ->
  _split_document text path = [join_blank_line (stripped_paragraphs text)].
Proof.
  intros Hne Hlen. rewrite split_document_never_truncates.
  pose proof (split_loop_no_flush (split_blank_line text) [] []) as Hloop.
  simpl in Hloop. fold (stripped_paragraphs text) in Hloop.
  rewrite Hloop; [|done|done].
  pose proof (join_trimmed (stripped_paragraphs text) (stripped_trimmed _) Hne) as Hj.
  rewrite (trimmed_strip _ Hj).
  by rewrite (proj2 (truthy_true _) (proj1 Hj)).
Qed.

(** The size of what the loop flushes and holds. *)
Lemma split_loop_sizes ps paragraphs : forall chunks current,
  incl (List.filter truthy (List.map strip paragraphs)) ps ->
  Forall (paragraph_or_short ps) chunks ->
  current = "" \/ (trimmed current /\ paragraph_or_short ps current) ->
  Forall (paragraph_or_short ps) (fst (split_loop paragraphs chunks current)) /\
  (snd (split_loop paragraphs chunks current) = "" \/
   (trimmed (snd (split_loop paragraphs chunks current)) /\
    paragraph_or_short ps (snd (split_loop paragraphs chunks current)))).
Proof.
  induction paragraphs as [|p rest IH]; intros chunks current Hincl Hchunks Hcur.
  { by split. }
  simpl split_loop. simpl List.map in Hincl. simpl List.filter in Hincl.
  destruct (truthy (strip p)) eqn:Hp; simpl negb; cbv iota; [|by apply IH].
  assert (trimmed (strip p)) as Htp by by apply strip_trimmed, truthy_true.
  assert (In (strip p) ps) as Hin by (apply Hincl; by left).
  assert (incl (List.filter truthy (List.map strip rest)) ps) as Hrest.
  { intros x Hx. apply Hincl. by right. }
  destruct Hcur as [->|[Htc Hsz]].
  - rewrite andb_false_r. simpl truthy. cbv iota.
    apply IH; [done|done|]. right. split; [done|by left].
  - assert (truthy current = true) as -> by by apply truthy_true, Htc.
    rewrite andb_true_r.
    destruct (max_chunk_size <? _)%nat eqn:Hlt.
    + rewrite (trimmed_strip _ Htc). apply IH; [done| |].
      * apply Forall_app. split; [done|by constructor].
      * right. split; [done|by left].
    + apply Nat.ltb_ge in Hlt. apply IH; [done|done|]. right. split.
      * by apply trimmed_app.
      * right. rewrite !str_length_app. change (String.length blank_line) with 2. lia.
Qed.

(** X17.  Every chunk is one of the stripped paragraphs, whole, or has at
    most 502 characters: the size check admits a paragraph while buffer
    and paragraph together have at most 500, and the join adds the
    separator. *)
Theorem split_document_chunk_sizes text path chunk :
  In chunk (_split_document text path) ->
  In chunk (stripped_paragraphs text) \/ String.length chunk <= 502.
Proof.
  rewrite split_document_never_truncates.
  pose proof (split_loop_sizes (stripped_paragraphs text) (split_blank_line text) [] ""
                (fun x Hx => Hx) ltac:(constructor) ltac:(by left)) as [Hchunks Hcur].
  destruct (split_loop (split_blank_line text) [] "") as [chunks current].
  simpl in Hchunks, Hcur. rewrite List.Forall_forall in Hchunks.
  destruct Hcur as [->|[Htc Hsz]].
  - simpl. apply Hchunks.
  - rewrite (trimmed_strip _ Htc).
    rewrite (proj2 (truthy_true _) (proj1 Htc)).
    intros [Hin|[<-|[]]]%in_app_or; [by apply Hchunks|exact Hsz].
Qed.

End ChunkerMore.

Lemma split_document_short_text_sample :
  _split_document ("one" +:+ blank_line +:+ " two ") "doc.txt"
  = [join_blank_line (stripped_paragraphs ("one" +:+ blank_line +:+ " two "))].
Proof.
  apply (split_document_short_text ("one" +:+ blank_line +:+ " two ") "doc.txt").
  - vm_compute. discriminate.
  - vm_compute. lia.
Defined.

Lemma split_document_chunk_sizes_sample :
  In (replicate_char 300 "a" +:+ blank_line +:+ replicate_char 199 "b")
    (stripped_paragraphs
       (replicate_char 300 "a" +:+ blank_line +:+ replicate_char 199 "b"))
  \/ String.length (replicate_char 300 "a" +:+ blank_line +:+ replicate_char 199 "b")
     <= 502.
Proof.
  apply (split_document_chunk_sizes
           (replicate_char 300 "a" +:+ blank_line +:+ replicate_char 199 "b") "doc.txt").
  vm_compute. left. reflexivity.
Defined.

(** ** Letter case *)

Section LetterCase.

Context `{CollectionAPI Store}.

Lemma lower_char_idemp c : lower_char (lower_char c) = lower_char c.
Proof. destruct c as [[] [] [] [] [] [] [] []]; reflexivity. Qed.

Lemma lower_idemp s : lower (lower s) = lower s.
Proof. induction s as [|c s IH]; [done|]. simpl. by rewrite lower_char_idemp, IH. Qed.

Lemma is_comma_lower_char c : is_comma (lower_char c) = is_comma c.
Proof. destruct c as [[] [] [] [] [] [] [] []]; reflexivity. Qed.

Lemma truthy_lower s : truthy (lower s) = truthy s.
Proof. by destruct s. Qed.

Lemma lstrip_lower s : lstrip (lower s) = lower (lstrip s).
Proof.
  induction s as [|c s IH]; [done|]. simpl. rewrite isspace_lower_char.
  by destruct (isspace c).
Qed.

Lemma rstrip_lower s : rstrip (lower s) = lower (rstrip s).
Proof.
  induction s as [|c s IH]; [done|]. simpl. rewrite IH, isspace_lower_char.
  destruct (rstrip s); simpl; [by destruct (isspace c)|done].
Qed.

Lemma strip_lower s : strip (lower s) = lower (strip s).
Proof. unfold strip. by rewrite lstrip_lower, rstrip_lower. Qed.

Lemma split_comma_lower s : split_comma (lower s) = List.map lower (split_comma s).
Proof.
  induction s as [|c s IH]; [done|]. simpl. rewrite is_comma_lower_char, IH.
  destruct (is_comma c); [done|]. by destruct (split_comma s).
Qed.

Lemma parse_tags_lower s : parse_tags (lower s) = parse_tags s.
Proof.
  unfold parse_tags. rewrite split_comma_lower. f_equal.
  induction (split_comma s) as [|t ts IH]; [done|]. simpl.
  rewrite strip_lower, truthy_lower.
  destruct (truthy (strip t)); [|done]. simpl.
  by rewrite strip_lower, lower_idemp, IH.
Qed.

Lemma word_set_lower s : word_set (lower s) = word_set s.
Proof. unfold word_set. by rewrite lower_idemp. Qed.

(** X19.  The requested tags are compared without regard to letter case:
    [search] gives the same outcome for a tags argument and for its
    lowercase form. *)
Theorem search_tags_case_insensitive (self : VectorRAGTool Store) env query k module t :
  search self env query k module (Some (lower t))
  = search self env query k module (Some t).
Proof.
  apply search_tags_ext; [apply truthy_lower|apply parse_tags_lower].
Qed.

(** X20.  The keyword matcher reads the query without regard to letter
    case: a query and its lowercase form give the same outcome. *)
Theorem fallback_search_query_case_insensitive env query k module tags :
  _fallback_search env (lower query) k module tags
  = _fallback_search env query k module tags.
Proof. unfold _fallback_search. by rewrite word_set_lower. Qed.

End LetterCase.

(** ** One result per document on the keyword path *)

Section Distinct.

Lemma overlapping_candidates_ids env query module tags rows :
  List.map res_id (overlapping_candidates env query module tags rows)
  `sublist_of` List.map VInt (List.map row_id rows).
Proof.
  unfold overlapping_candidates.
  induction rows as [|row rest IH]; [done|]. simpl.
  destruct (candidate_text env module tags row) as [text|]; [|by apply sublist_cons].
  destruct (decide (_ = ∅)); [by apply sublist_cons|].
  simpl. by apply sublist_skip.
Qed.

Lemma slice_to_sublist {A} (k : Z) (l : list A) : slice_to k l `sublist_of` l.
Proof. unfold slice_to. destruct (0 <=? k)%Z; apply sublist_take. Qed.

(** X21.  On the keyword path a document is returned at most once: where
    the rows have distinct ids, so have the results. *)
Theorem fallback_search_distinct_documents env query k module tags rows results :
  db_documents env = Ok rows ->
  NoDup (List.map row_id rows) ->
  _fallback_search env query k module tags = Ok results ->
  NoDup (List.map res_id results).
Proof.
  intros Hdb Hrows. rewrite (fallback_search_ranked env query k module tags rows Hdb).
  intros [= <-].
  assert (NoDup (res_id <$> overlapping_candidates env query module tags rows)) as Hcand.
  { eapply sublist_NoDup; [|apply overlapping_candidates_ids].
    assert (Inj (=) (=) VInt) as Hinj by (intros z1 z2 [= ->]; done).
    apply (NoDup_fmap_2 VInt), Hrows. }
  assert (NoDup (res_id <$> sort_desc (overlapping_candidates env query module tags rows)))
    as Hsorted by (by rewrite (sort_desc_perm _)).
  eapply sublist_NoDup; [exact Hsorted|].
  apply (fmap_sublist res_id), slice_to_sublist.
Qed.

End Distinct.

Lemma fallback_search_distinct_documents_sample :
  NoDup (List.map res_id [SampleResults.playbook; SampleResults.note]).
Proof.
  apply (fallback_search_distinct_documents Sample.env "refunds days" 2 None None
           Sample.rows [SampleResults.playbook; SampleResults.note]).
  - reflexivity.
  - apply (bool_decide_eq_true_1 _). vm_compute. reflexivity.
  - vm_compute. reflexivity.
Defined.

(** ** The order of the results on the similarity path *)

Section BestFirst.

Context `{CollectionAPI Store}.

(** What the loop returns is what it held, followed by the kept results of
    the neighbours it went through. *)
Lemma process_results_prefix k tags items : forall acc results,
  process_results k tags items acc = Ok results ->
  exists n, results = acc ++ kept_results tags (firstn n items).
Proof.
  induction items as [|nb rest IH]; intros acc results; simpl.
  { intros [= <-]. exists 0. by rewrite app_nil_r. }
  destruct (process_neighbor tags nb) as [[r|]|e] eqn:Hnb; [| |done].
  - destruct (k <=? _)%Z.
    + intros [= <-]. exists 1. simpl firstn.
      by rewrite kept_results_cons, Hnb.
    + intros [n ->]%IH. exists (S n). simpl firstn.
      by rewrite kept_results_cons, Hnb, <- app_assoc.
  - intros [n ->]%IH. exists (S n). simpl firstn.
    by rewrite kept_results_cons, Hnb.
Qed.

Lemma max0_monotone x y : (x <= y)%Q -> (max0 x <= max0 y)%Q.
Proof.
  intros Hle. unfold max0.
  destruct (Qltb 0 x) eqn:Hx, (Qltb 0 y) eqn:Hy; try done.
  - apply Qltb_lt in Hx. apply Qltb_ge in Hy.
    exfalso. apply (Qlt_irrefl 0).
    apply (Qlt_le_trans _ x); [done|]. by apply (Qle_trans _ y).
  - apply Qltb_lt in Hy. by apply Qlt_le_weak.
Qed.

Lemma score_of_nearer d1 d2 : (d1 <= d2)%Q -> (max0 (1 - d2) <= max0 (1 - d1))%Q.
Proof.
  intros Hle. apply max0_monotone.
  destruct d1 as [n1 m1], d2 as [n2 m2]. unfold Qle in *. simpl in *. nia.
Qed.

Lemma In_kept_results tags items r :
  In r (kept_results tags items) ->
  exists nb, In nb items /\ process_neighbor tags nb = Ok (Some r).
Proof.
  induction items as [|nb rest IH]; [done|].
  rewrite kept_results_cons.
  destruct (process_neighbor tags nb) as [[r'|]|e] eqn:Hnb.
  - intros [<-|Hin].
    + exists nb. split; [by left|done].
    + destruct (IH Hin) as (nb' & ? & ?). exists nb'. split; [by right|done].
  - intros Hin. destruct (IH Hin) as (nb' & ? & ?). exists nb'. split; [by right|done].
  - intros Hin. destruct (IH Hin) as (nb' & ? & ?). exists nb'. split; [by right|done].
Qed.

Lemma kept_results_sorted tags items :
  StronglySorted nearer_first items ->
  StronglySorted score_ge (kept_results tags items).
Proof.
  induction 1 as [|nb rest Hsorted IH Hall]; [constructor|].
  rewrite kept_results_cons.
  destruct (process_neighbor tags nb) as [[r|]|e] eqn:Hnb; [|done|done].
  constructor; [done|]. apply List.Forall_forall. intros r' Hin.
  apply In_kept_results in Hin as (nb' & Hin & Hnb').
  rewrite List.Forall_forall in Hall. specialize (Hall nb' Hin).
  destruct nb as [[doc md] dist], nb' as [[doc' md'] dist'].
  apply process_neighbor_some in Hnb as (_ & _ & d & -> & Hscore).
  apply process_neighbor_some in Hnb' as (_ & _ & d' & -> & Hscore').
  unfold score_ge. rewrite Hscore, Hscore'.
  apply score_of_nearer. by apply Hall.
Qed.

Lemma firstn_sorted {A} (R : A -> A -> Prop) n l :
  StronglySorted R l -> StronglySorted R (firstn n l).
Proof.
  intros Hs. revert n. induction Hs as [|x l Hs IH Hall]; intros [|n]; simpl;
    try constructor; [apply IH|].
  apply List.Forall_forall. intros y Hy%In_firstn_In.
  rewrite List.Forall_forall in Hall. by apply Hall.
Qed.

(** X22.  Where the index gives its neighbours by increasing distance, the
    similarity path returns its results by descending score. *)
Theorem similarity_search_best_first store query k module tags answer results :
  col_query store query (Z.min (k * 2) 20)
    (if opt_truthy module then module else None) = Ok answer ->
  StronglySorted nearer_first (yielded_neighbours answer) ->
  similarity_search store query k module tags = Ok results ->
  StronglySorted score_ge results.
Proof.
  intros Hquery Hsorted [->|(answer' & Hquery' & Hrun)]%similarity_search_items;
    [constructor|].
  rewrite Hquery in Hquery'. injection Hquery' as <-.
  apply process_results_prefix in Hrun as [n ->]. simpl.
  by apply kept_results_sorted, firstn_sorted.
Qed.

End BestFirst.

Lemma similarity_search_best_first_sample :
  StronglySorted score_ge [SampleResults.first_neighbour; SampleResults.second_neighbour].
Proof.
  apply (similarity_search_best_first
           (Sample.store_answering (Ok Sample.two_neighbours)) "refunds" 3 None None
           Sample.two_neighbours).
  - reflexivity.
  - repeat constructor. intros d1 d2 [= <-] [= <-]. discriminate.
  - vm_compute. reflexivity.
Defined.

(** ** The summary of a caller *)

Section Summary.

Context `{CollectionAPI Store}.

Lemma context_loop_length results :
  Forall (fun r => String.length (res_excerpt r) <= 203) results ->
  String.length (context_loop 1 (firstn 3 results) "") <= 621.
Proof.
  intros Hall.
  assert (forall r, In r (firstn 3 results) -> String.length (res_excerpt r) <= 203)
    as Hin.
  { intros r Hr%In_firstn_In. rewrite List.Forall_forall in Hall. by apply Hall. }
  assert (length (firstn 3 results) <= 3) as Hlen by (rewrite length_firstn; lia).
  destruct (firstn 3 results) as [|r1 [|r2 [|r3 [|r4 rest]]]]; simpl in Hlen; try lia;
    simpl context_loop; rewrite ?app_empty_l, ?str_length_app;
    change (String.length (pretty 1)) with 1;
    change (String.length (pretty 2)) with 1;
    change (String.length (pretty 3)) with 1;
    change (String.length ". ") with 2;
    change (String.length newline) with 1.
  - simpl. lia.
  - pose proof (Hin r1 ltac:(by left)). lia.
  - pose proof (Hin r1 ltac:(by left)). pose proof (Hin r2 ltac:(right; by left)). lia.
  - pose proof (Hin r1 ltac:(by left)). pose proof (Hin r2 ltac:(right; by left)).
    pose proof (Hin r3 ltac:(right; right; by left)). lia.
Qed.

(** X23.  When the language model cannot be reached, the finance agent's
    summary of the results of a [search] is the heading followed by the
    numbered excerpts of the first three results, at most 653 characters
    in all, whatever the documents hold. *)
Theorem summarise_policy_results_bounded (self : VectorRAGTool Store) env query k
    module tags results call_gemini_prompt :
  search self env query k module tags = Ok results ->
  results <> [] ->
  (forall prompt, exists e, call_gemini_prompt prompt = Raise e) ->
  _summarise_policy_results call_gemini_prompt results query
  = "Based on our finance policies:" +:+ newline +:+ newline
    +:+ context_loop 1 (firstn 3 results) "" /\
  String.length (_summarise_policy_results call_gemini_prompt results query) <= 653.
Proof.
  intros Hrun Hne Hdown.
  assert (Forall (fun r => String.length (res_excerpt r) <= 203) results) as Hall.
  { apply (search_results_forall _ self env query k module tags results); [| |done].
    - intros [[doc metadata] distance] r (text & _ & ->)%process_neighbor_excerpt.
      apply excerpt_of_length.
    - intros rows r _ (row & text & _ & _ & _ & ->)%overlapping_candidates_inv.
      apply excerpt_of_length. }
  assert (_summarise_policy_results call_gemini_prompt results query
          = "Based on our finance policies:" +:+ newline +:+ newline
            +:+ context_loop 1 (firstn 3 results) "") as Heq.
  { unfold _summarise_policy_results. destruct results as [|r results]; [done|].
    destruct (Hdown (newline
        +:+ "Based on the following finance policy information, answer the user's question: "
        +:+ double_quote +:+ query +:+ double_quote +:+ newline
        +:+ newline
        +:+ "Relevant policy information:" +:+ newline
        +:+ context_loop 1 (firstn 3 (r :: results)) "" +:+ newline
        +:+ newline
        +:+ "Provide a clear, professional response that addresses the user's question about our finance policies."
        +:+ newline)) as [e ->].
    done. }
  split; [done|]. rewrite Heq, !str_length_app.
  pose proof (context_loop_length results Hall).
  change (String.length "Based on our finance policies:") with 30.
  change (String.length newline) with 1. lia.
Qed.

End Summary.

Lemma summarise_policy_results_bounded_sample :
  _summarise_policy_results SampleModel.unreachable
    [SampleResults.playbook; SampleResults.note] "refunds days"
  = "Based on our finance policies:" +:+ newline +:+ newline
    +:+ context_loop 1 (firstn 3 [SampleResults.playbook; SampleResults.note]) "" /\
  String.length
    (_summarise_policy_results SampleModel.unreachable
       [SampleResults.playbook; SampleResults.note] "refunds days") <= 653.
Proof.
  apply (summarise_policy_results_bounded Sample.tool_without_index Sample.env
           "refunds days" 2 None (Some "") [SampleResults.playbook; SampleResults.note]
           SampleModel.unreachable).
  - vm_compute. reflexivity.
  - discriminate.
  - intros prompt. eexists. reflexivity.
Defined.

Example summarise_policy_results_text :
  _summarise_policy_results SampleModel.unreachable
    [SampleResults.playbook; SampleResults.note] "refunds days"
  = "Based on our finance policies:" +:+ newline +:+ newline
    +:+ "1. refunds policy days" +:+ newline
    +:+ "2. days" +:+ newline.
Proof. vm_compute. reflexivity. Qed.

(** ** Chunk ids *)

Section ChunkIds.

Lemma no_underscore_digit x : Ascii.eqb (pretty_N_char x) "_"%char = false.
Proof. unfold pretty_N_char. by repeat case_match. Qed.

Lemma pretty_N_go_no_underscore x s :
  no_underscore s = true -> no_underscore (pretty_N_go x s) = true.
Proof.
  revert s. induction (N.lt_wf_0 x) as [x _ IH]; intros s Hs.
  assert (x = 0 \/ 0 < x)%N as [->|Hpos] by lia.
  - by rewrite pretty_N_go_0.
  - rewrite pretty_N_go_step by done. apply IH.
    + by apply N.div_lt.
    + simpl. by rewrite no_underscore_digit, Hs.
Qed.

Lemma pretty_N_no_underscore (x : N) : no_underscore (pretty x) = true.
Proof.
  unfold pretty, pretty_N. case_decide; [done|].
  by apply pretty_N_go_no_underscore.
Qed.

Lemma pretty_nat_no_underscore (i : nat) : no_underscore (pretty i) = true.
Proof. apply pretty_N_no_underscore. Qed.

Lemma pretty_Z_no_underscore (z : Z) : no_underscore (pretty z) = true.
Proof.
  destruct z as [|p|p]; [done|apply pretty_N_no_underscore|].
  unfold pretty, pretty_Z. rewrite app_cons. simpl.
  apply (pretty_N_no_underscore (Npos p)).
Qed.

(** Two strings without the separator, each followed by the separator and
    a rest: equal wholes have equal parts. *)
Lemma split_at_underscore a a' b b' :
  no_underscore a = true -> no_underscore a' = true ->
  a +:+ "_" +:+ b = a' +:+ "_" +:+ b' ->
  a = a' /\ b = b'.
Proof.
  revert a'. induction a as [|c a IH]; intros [|c' a'] Ha Ha'.
  - intros Heq. change (String "_" b = String "_" b') in Heq.
    by injection Heq as ->.
  - intros Heq. change (String "_" b = String c' (a' +:+ "_" +:+ b')) in Heq.
    injection Heq as <- _. simpl in Ha'. done.
  - intros Heq. change (String c (a +:+ "_" +:+ b) = String "_" b') in Heq.
    injection Heq as -> _. simpl in Ha. done.
  - intros Heq.
    change (String c (a +:+ "_" +:+ b) = String c' (a' +:+ "_" +:+ b')) in Heq.
    injection Heq as -> Hrest.
    simpl in Ha, Ha'.
    apply andb_true_iff in Ha as [_ Ha]. apply andb_true_iff in Ha' as [_ Ha'].
    destruct (IH a' Ha Ha' Hrest) as [-> ->]. done.
Qed.

Lemma chunk_id_inj (z z' : Z) (i i' : nat) :
  pretty z +:+ "_" +:+ pretty i = pretty z' +:+ "_" +:+ pretty i' ->
  z = z' /\ i = i'.
Proof.
  intros [Hz Hi]%split_at_underscore;
    [|apply pretty_Z_no_underscore|apply pretty_Z_no_underscore].
  split; [by apply (inj pretty)|by apply (inj pretty)].
Qed.

Lemma In_row_entries env row e :
  In e (row_entries env row) ->
  exists i : nat, entry_id e = pretty (row_id row) +:+ "_" +:+ pretty i.
Proof.
  unfold row_entries.
  destruct (read_text env (row_path row)) as [text|]; [|done].
  destruct (truthy (strip text)); [|done].
  intros (i & chunk & _ & _ & Hid & _)%In_chunk_entries. by exists i.
Qed.

Lemma chunk_entries_ids_NoDup row chunks :
  NoDup (List.map entry_id (chunk_entries row chunks)).
Proof.
  apply NoDup_alt. intros i j id Hi Hj.
  rewrite list_lookup_fmap in Hi, Hj.
  unfold chunk_entries in Hi, Hj. rewrite list_lookup_imap in Hi, Hj.
  destruct (chunks !! i) as [ci|]; [|done].
  destruct (chunks !! j) as [cj|]; [|done].
  simpl in Hi, Hj. injection Hi as <-. injection Hj as Heq.
  by apply chunk_id_inj in Heq as [_ ->].
Qed.

Lemma row_entries_ids_NoDup env row :
  NoDup (List.map entry_id (row_entries env row)).
Proof.
  unfold row_entries.
  destruct (read_text env (row_path row)) as [text|]; [|constructor].
  destruct (truthy (strip text)); [|constructor].
  apply chunk_entries_ids_NoDup.
Qed.

(** X18.  Where the rows have distinct ids, the entries the loader builds
    have distinct ids: [f"{doc_id}_{i}"] names the document and the chunk
    without ambiguity. *)
Theorem collect_entries_ids_distinct env rows :
  NoDup (List.map row_id rows) ->
  NoDup (List.map entry_id (collect_entries env rows [])).
Proof.
  rewrite collect_entries_flat_map. simpl.
  induction rows as [|row rest IH]; [constructor|].
  simpl. intros [Hnotin Hrest]%NoDup_cons.
  rewrite List.map_app. apply NoDup_app.
  split; [apply row_entries_ids_NoDup|].
  split; [|by apply IH].
  intros id Hin1%list_elem_of_In Hin2%list_elem_of_In.
  apply in_map_iff in Hin1 as (e1 & <- & He1).
  apply in_map_iff in Hin2 as (e2 & Heq & He2).
  apply in_flat_map in He2 as (row' & Hrow' & He2).
  apply In_row_entries in He1 as [i1 Hid1].
  apply In_row_entries in He2 as [i2 Hid2].
  rewrite Hid1, Hid2 in Heq. apply chunk_id_inj in Heq as [Hid _].
  apply Hnotin. rewrite <- Hid. apply list_elem_of_In. by apply in_map.
Qed.

End ChunkIds.

(** ** The further properties on the sample corpus *)

Lemma search_returns_first_k_kept_sample :
  search (Sample.tool_with (Sample.store_answering (Ok Sample.two_neighbours)))
    Sample.env "refunds" 1 None None
  = Ok (firstn (Z.to_nat 1)
          (kept_results None (yielded_neighbours Sample.two_neighbours))).
Proof.
  apply (search_returns_first_k_kept
           (Sample.tool_with (Sample.store_answering (Ok Sample.two_neighbours)))
           Sample.env "refunds" 1 None None
           (Sample.store_answering (Ok Sample.two_neighbours)) Sample.two_neighbours).
  - reflexivity.
  - reflexivity.
  - lia.
  - reflexivity.
  - discriminate.
  - intros nb [<-|[<-|[]]]; eexists; vm_compute; reflexivity.
Defined.

Lemma similarity_search_ignores_neighbours_past_k_sample :
  similarity_search (Sample.store_answering (Ok SampleIndex.then_without_metadata))
    "refunds" 1 None None
  = Ok [SampleResults.first_neighbour].
Proof.
  apply (similarity_search_ignores_neighbours_past_k
           (Sample.store_answering (Ok SampleIndex.one_neighbour))
           (Sample.store_answering (Ok SampleIndex.then_without_metadata))
           "refunds" 1 None None
           SampleIndex.one_neighbour SampleIndex.then_without_metadata
           [(Some "within 14 days", None, Some (1 # 2)%Q)]
           [SampleResults.first_neighbour]).
  - lia.
  - reflexivity.
  - reflexivity.
  - reflexivity.
  - vm_compute. reflexivity.
  - reflexivity.
Defined.

(** With [k = 2] the same answer sends the call to the keyword matcher:
    the neighbour without metadata is reached and raises. *)
Example search_reaches_neighbour_without_metadata :
  similarity_search (Sample.store_answering (Ok SampleIndex.then_without_metadata))
    "refunds" 2 None None
  = Raise TypeError.
Proof. vm_compute. reflexivity. Qed.


Lemma collect_entries_indexes_rows_with_content_sample :
  exists e,
    In e (collect_entries Sample.env Sample.rows []) /\
    entry_id e = pretty (row_id Sample.sales_note) +:+ "_0" /\
    entry_metadata e !! "doc_id" = Some (VInt (row_id Sample.sales_note)).
Proof.
  apply (proj2 (collect_entries_indexes_rows_with_content Sample.env Sample.rows)
           Sample.sales_note).
  - right. right. left. reflexivity.
  - reflexivity.
Defined.

Lemma loaded_entry_is_processed_sample :
  process_neighbor (Some "policy") (neighbour_of SampleIndex.loaded_entry (1 # 4)%Q)
  = Ok (if tags_match (Some "policy") (or_empty (row_tags Sample.refund_policy))
        then Some {| res_id := VInt (row_id Sample.refund_policy);
                     res_module := value_of_opt (row_module Sample.refund_policy);
                     res_tags := VStr (or_empty (row_tags Sample.refund_policy));
                     res_score := max0 (1 - (1 # 4));
                     res_excerpt := excerpt_of (entry_document SampleIndex.loaded_entry);
                     res_path := value_of_opt (row_path Sample.refund_policy) |}
        else None).
Proof.
  apply (loaded_entry_is_processed Sample.refund_policy
           ["Refunds are processed within 14 days"]
           SampleIndex.loaded_entry (1 # 4)%Q (Some "policy")).
  left. reflexivity.
Defined.

Lemma adapters_results_carry_their_tags_sample :
  "policy" ∈ value_tags (res_tags SampleResults.first_neighbour).
Proof.
  apply (proj1 (adapters_results_carry_their_tags
                  (Sample.tool_with (Sample.store_answering (Ok Sample.two_neighbours)))
                  Sample.env "refunds" 3
                  [SampleResults.first_neighbour; SampleResults.second_neighbour]
                  SampleResults.first_neighbour
                  ltac:(left; reflexivity))).
  vm_compute. reflexivity.
Defined.

Lemma collect_entries_ids_distinct_sample :
  NoDup (List.map entry_id (collect_entries Sample.env Sample.rows [])).
Proof.
  apply (collect_entries_ids_distinct Sample.env Sample.rows).
  apply (bool_decide_eq_true_1 _). vm_compute. reflexivity.
Defined.

(** A construction that fails half way leaves a tool that answers by
    keywords. *)
Example init_without_client :
  __init__ SampleIndex.platform_without_client "main_documents" Sample.env
  = (disabled_tool, []) /\
  search (fst (__init__ SampleIndex.platform_without_client "main_documents" Sample.env))
    Sample.env "refunds days" 2 None None
  = Ok [SampleResults.playbook; SampleResults.note].
Proof. split; vm_compute; reflexivity. Qed.

(** A construction that succeeds on an empty collection loads it. *)
Example init_loads_empty_collection :
  List.map (List.map entry_id)
    (snd (__init__ SampleIndex.working_platform "main_documents" Sample.env))
  = [["1_0"; "2_0"; "3_0"]].
Proof. vm_compute. reflexivity. Qed.
